(** * docs/cudf/source/dask-xgb-10min.ipynb

    A shallow embedding of the notebook "10 Minutes to distributed GPU
    accelerated XGBoost": its code cells as statements of a small state and
    exception monad over the kernel (process environment, global names, heap
    of mutable objects, log of external calls), the table and series
    operations it calls, and the properties of the run.

    Libraries.  The notebook is a caller: cudf and dask_cudf, the code of
    this repository that it calls, are not among the sources at hand, and
    their operations are modelled from the spec and from what the notebook
    says of them; each such definition says so.  dask, dask_cuda, cupy's
    generators, subprocess and xgboost are external: their operations are
    the fields of the class [External], free to return anything or to
    raise.

    Numbers.  Column [y] holds IEEE binary64 values ([spec_float]) and is
    only ever compared with the constant 0.5.  The metric arithmetic
    (differences, squares, sums, the mean and the square root) is carried
    out over the real numbers: rounding and the order of a device reduction
    are not part of this model. *)

From Stdlib Require Import ZArith Reals Lra Lia String Ascii List.
From Stdlib Require Import Floats.SpecFloat.
From stdpp Require Import base option list gmap strings sorting.

Local Open Scope Z_scope.

(** ** Python exceptions and results *)

Inductive exn :=
| IndexError
| KeyError (key : string)
| NameError (name : string)
| TypeError
| ValueError
| LibraryError (what : string).

Inductive outcome (A : Type) :=
| Ok (a : A)
| Raise (e : exn).
Arguments Ok {A} a.
Arguments Raise {A} e.

#[global] Instance outcome_ret : MRet outcome := λ A a, Ok a.
#[global] Instance outcome_bind : MBind outcome := λ A B f m,
  match m with
  | Ok a => f a
  | Raise e => Raise e
  end.
#[global] Instance outcome_fmap : FMap outcome := λ A B f m,
  match m with
  | Ok a => Ok (f a)
  | Raise e => Raise e
  end.

(** [mapM] for [outcome]: the first exception wins. *)
Fixpoint traverse {A B} (f : A → outcome B) (l : list A) : outcome (list B) :=
  match l with
  | [] => Ok []
  | a :: l' => b ← f a; bs ← traverse f l'; Ok (b :: bs)
  end.

(** ** Python text: [str.split()] and indexing

    A [str] is a sequence of code points; the model keeps the code points
    below 256, one per [ascii]. *)

(** [str.isspace] on one code point: TAB..CR, FS..US, SPACE, NEL, NBSP. *)
Definition isspace (c : ascii) : bool :=
  let n := N_of_ascii c in
  (((9 <=? n) && (n <=? 13)) || ((28 <=? n) && (n <=? 32))
   || (n =? 133) || (n =? 160))%N.

(** [s.split()] without a separator: runs of whitespace separate the
    tokens, and no empty token is produced.  [tok] is the token being
    read. *)
Fixpoint split_whitespace (tok : string) (s : string) : list string :=
  match s with
  | EmptyString => if decide (tok = EmptyString) then [] else [tok]
  | String c s' =>
      if isspace c
      then if decide (tok = EmptyString)
           then split_whitespace EmptyString s'
           else tok :: split_whitespace EmptyString s'
      else split_whitespace (tok +:+ String c EmptyString) s'
  end.

Definition str_split (s : string) : list string :=
  split_whitespace EmptyString s.

(** [l[i]] on a Python list, negative indices counting from the end. *)
Definition list_getitem {A} (l : list A) (i : Z) : outcome A :=
  let n := Z.of_nat (length l) in
  let j := if decide (i < 0) then n + i else i in
  if decide (0 ≤ j < n)
  then from_option Ok (Raise IndexError) (l !! Z.to_nat j)
  else Raise IndexError.

(** [str(text).split()[0]], the expression that yields [IPADDR] once the
    bytes of the command's output are decoded. *)
Definition first_token (text : string) : outcome string :=
  list_getitem (str_split text) 0.

(** A text of whitespace only (or empty), and a text without whitespace. *)
Fixpoint blank (s : string) : bool :=
  match s with
  | EmptyString => true
  | String c s' => isspace c && blank s'
  end.

Fixpoint solid (s : string) : bool :=
  match s with
  | EmptyString => true
  | String c s' => negb (isspace c) && solid s'
  end.

(** What may follow a token: the end of the text, or whitespace. *)
Definition token_end (s : string) : bool :=
  match s with
  | EmptyString => true
  | String c _ => isspace c
  end.

(** ** Tables: [cudf.DataFrame] and [dask_cudf.DataFrame]

    The spec's data model: a table has a schema (column name to numeric
    type) and rows; a distributed table is a fixed number of row-disjoint
    shards that together make up the table. *)

Inductive dtype := int64 | float64.

Inductive cell :=
| CInt (z : Z)
| CFloat (f : spec_float).

Inductive column :=
| IntColumn (values : list Z)
| FloatColumn (values : list spec_float).

Record row := Row { label : Z; cells : list cell }.

Record DataFrame := Frame {
  columns : list (string * dtype);
  rows : list row
}.

Record DaskDataFrame := Dask {
  meta : list (string * dtype);
  partitions : list DataFrame
}.

Definition column_dtype (c : column) : dtype :=
  match c with IntColumn _ => int64 | FloatColumn _ => float64 end.

Definition column_cells (c : column) : list cell :=
  match c with
  | IntColumn v => CInt <$> v
  | FloatColumn v => CFloat <$> v
  end.

(** Modelled from the spec: [cudf.DataFrame({name1: col1, name2: col2})]
    (cudf is not under src/), "builds an in-memory columnar table with two
    numeric columns".  The columns keep the order of the dictionary, the
    index is [0 .. n-1], and columns of different lengths are refused. *)
Definition cudf_DataFrame (c1 c2 : string * column) : outcome DataFrame :=
  let v1 := column_cells c1.2 in
  let v2 := column_cells c2.2 in
  if decide (length v1 = length v2)
  then Ok (Frame [(c1.1, column_dtype c1.2); (c2.1, column_dtype c2.2)]
             (imap (λ i v, Row (Z.of_nat i) [v.1; v.2]) (zip v1 v2)))
  else Raise ValueError.

(** [n] consecutive shards of [chunk] rows each (the last ones shorter or
    empty when the rows run out). *)
Fixpoint shards {A} (n chunk : nat) (l : list A) : list (list A) :=
  match n with
  | O => []
  | S n' => take chunk l :: shards n' chunk (drop chunk l)
  end.

(** ceil(nrows / npartitions) *)
Definition chunksize (nrows npartitions : nat) : nat :=
  ((nrows + npartitions - 1) / npartitions)%nat.

(** Modelled from the spec: [dask_cudf.from_cudf(df, npartitions=n)]
    (dask_cudf is not under src/), "partitions it into a fixed number of
    shards", each shard a run of consecutive rows. *)
Definition from_cudf (df : DataFrame) (npartitions : Z) : outcome DaskDataFrame :=
  if decide (0 < npartitions)
  then let n := Z.to_nat npartitions in
       Ok (Dask (columns df)
             (Frame (columns df) <$>
                shards n (chunksize (length (rows df)) n) (rows df)))
  else Raise ValueError.

(** Modelled from the spec: [ddf.compute()] (dask_cudf is not under
    src/), "a table's partitions collectively reconstruct it with original
    column schema": the shards put back together. *)
Definition dask_compute (d : DaskDataFrame) : DataFrame :=
  Frame (meta d) (concat (rows <$> partitions d)).

(** The constant 0.5 of the two queries, as a binary64 value. *)
Definition half : spec_float := S754_finite false 4503599627370496 (-53).

(** The query strings ['y < 0.5'] and ['y > 0.5'] parsed: a column, a
    strict comparison and a constant. *)
Inductive cmpop := OpLt | OpGt.

Record predicate := Cmp {
  q_column : string;
  q_op : cmpop;
  q_const : spec_float
}.

Definition column_position (name : string) (cols : list (string * dtype))
  : option nat :=
  fst <$> list_find (λ c, c.1 = name) cols.

(** An int64 cell compared with a float constant is first converted to
    binary64. *)
Definition cell_float (c : cell) : spec_float :=
  match c with
  | CInt z => binary_normalize 53 1024 z 0 false
  | CFloat f => f
  end.

(** IEEE comparison: [v > k] is [k < v]; both are false on NaN. *)
Definition compare_holds (op : cmpop) (v k : spec_float) : bool :=
  match op with
  | OpLt => SFltb v k
  | OpGt => SFltb k v
  end.

Definition row_satisfies (i : nat) (q : predicate) (r : row) : bool :=
  match cells r !! i with
  | Some c => compare_holds (q_op q) (cell_float c) (q_const q)
  | None => false
  end.

(** Modelled from the spec: [DataFrame.query] (cudf is not under src/),
    "row-filter split by a numeric threshold": the rows that satisfy the
    predicate, in order, with their index labels and the same schema. *)
Definition query (q : predicate) (df : DataFrame) : outcome DataFrame :=
  match column_position (q_column q) (columns df) with
  | None => Raise (NameError (q_column q))
  | Some i =>
      Ok (Frame (columns df) (filter (λ r, row_satisfies i q r) (rows df)))
  end.

(** Modelled from the spec: [dask_cudf.DataFrame.query] (not under src/):
    the row filter applied shard by shard, so that "partition boundaries
    are determined by the filter predicate applied". *)
Definition dask_query (q : predicate) (d : DaskDataFrame) : outcome DaskDataFrame :=
  _ ← query q (Frame (meta d) []);
  ps ← traverse (query q) (partitions d);
  Ok (Dask (meta d) ps).

(** No index label occurs twice among the rows of the shards: the shards
    are row-disjoint. *)
Definition row_disjoint (d : DaskDataFrame) : Prop :=
  NoDup (label <$> concat (rows <$> partitions d)).

(** Every shard has the schema of the distributed table. *)
Definition same_schema (d : DaskDataFrame) : Prop :=
  Forall (λ p, columns p = meta d) (partitions d).

(** The constants of In [4]. *)
Definition size : Z := 1000000.
Definition npartitions : Z := 8.

(** ['y < 0.5'] and ['y > 0.5'] *)
Definition the_query (op : cmpop) : predicate := Cmp "y" op half.

(** A row cut down to the cells at the positions [idx]. *)
Definition project (idx : list nat) (r : row) : row :=
  Row (label r) (omap (λ i, cells r !! i) idx).

(** Modelled from the spec: [df[[name, ...]]] (cudf is not under src/; the
    spec has no words for column selection): the named columns, in the
    order asked for, on the same rows. *)
Definition select_columns (names : list string) (df : DataFrame) : outcome DataFrame :=
  idx ← traverse (λ n, from_option Ok (Raise (KeyError n))
                         (column_position n (columns df))) names;
  Ok (Frame (omap (λ i, columns df !! i) idx) (project idx <$> rows df)).

Definition dask_select_columns (names : list string) (d : DaskDataFrame)
  : outcome DaskDataFrame :=
  m ← select_columns names (Frame (meta d) []);
  ps ← traverse (select_columns names) (partitions d);
  Ok (Dask (columns m) ps).

(** [columns.difference(other)]: the names not in [other], sorted,
    without duplicates. *)
Definition index_difference (names other : list string) : list string :=
  merge_sort (λ a b, String.leb a b)
    (remove_dups (filter (λ n, n ∉ other) names)).

(** [t[['x']]], the labels, and [t[t.columns.difference(['x'])]], the
    features, of a subset [t]. *)
Definition target (t : DaskDataFrame) : outcome DaskDataFrame :=
  dask_select_columns ["x"] t.

Definition features (t : DaskDataFrame) : outcome DaskDataFrame :=
  dask_select_columns (index_difference (meta t).*1 ["x"]) t.

(** A table with the schema of In [4]: an int64 column [x] and a float64
    column [y], a cell of each in every row, and that schema on every
    shard. *)
Definition xy_row (r : row) : bool :=
  match cells r with
  | [CInt _; CFloat _] => true
  | _ => false
  end.

Definition xy_table (t : DaskDataFrame) : Prop :=
  meta t = [("x", int64); ("y", float64)]
  ∧ same_schema t
  ∧ Forall (λ p, Forall (λ r, xy_row r) (rows p)) (partitions t).

(** ** Series: [cudf.Series] and [dask_cudf.Series]

    A series is a column with its index: pairs of an index label and a
    value, [None] for a missing value.  A distributed series is the list of
    its partitions. *)

Abbreviation Series := (list (Z * option R)).
Abbreviation DaskSeries := (list (list (Z * option R))).

(** The real number a binary64 value stands for; NaN and the infinities
    have none and count as missing. *)
Definition float_real (f : spec_float) : option R :=
  match f with
  | S754_zero _ => Some 0%R
  | S754_finite s m e =>
      Some (IZR (if s then Z.neg m else Z.pos m) * powerRZ 2 e)%R
  | S754_infinity _ | S754_nan => None
  end.

Definition cell_real (c : cell) : option R :=
  match c with
  | CInt z => Some (IZR z)
  | CFloat f => float_real f
  end.

(** A series without missing values, from its index labels and values. *)
Definition labelled (l : list (Z * R)) : Series :=
  (λ e : Z * R, (e.1, Some e.2)) <$> l.

(** Modelled from the spec: [df[name]] (cudf is not under src/; the spec
    has no words for it): one column as a series, with the index labels
    of the rows. *)
Definition column_series (name : string) (df : DataFrame) : outcome Series :=
  match column_position name (columns df) with
  | None => Raise (KeyError name)
  | Some i => Ok ((λ r, (label r, cells r !! i ≫= cell_real)) <$> rows df)
  end.

Definition dask_column_series (name : string) (d : DaskDataFrame)
  : outcome DaskSeries :=
  _ ← column_series name (Frame (meta d) []);
  traverse (column_series name) (partitions d).

(** The index label and the [x] value of a row, as a real number. *)
Definition label_value (r : row) : Z * R :=
  (label r, match cells r with CInt x :: _ => IZR x | _ => 0%R end).

(** Modelled from the spec: [cudf.Series(part)] (cudf is not under src/;
    the spec has no words for it): an array as a series with the index
    [0 .. n-1]. *)
Definition series_of_array (a : list R) : Series :=
  imap (λ i v, (Z.of_nat i, Some v)) a.

(** Modelled from the spec: [s.reset_index(drop=True)] (cudf is not under
    src/); the notebook: "we align the index of both the Series by
    resetting it".  The same values, the index [0 .. n-1]. *)
Definition reset_index (s : Series) : Series :=
  imap (λ i (e : Z * option R), (Z.of_nat i, e.2)) s.

(** Modelled from the spec: [ds.reset_index(drop=True)] on a distributed
    series (dask_cudf is not under src/): the index starts again at 0 in
    every partition. *)
Definition dask_reset_index (ds : DaskSeries) : DaskSeries :=
  reset_index <$> ds.

Definition series_lookup (s : Series) (l : Z) : option R :=
  list_find (λ e : Z * option R, e.1 = l) s ≫= λ p, p.2.2.

Definition lift2 (f : R → R → R) (a b : option R) : option R :=
  match a, b with
  | Some x, Some y => Some (f x y)
  | _, _ => None
  end.

(** Modelled from the spec: arithmetic between two series (cudf is not
    under src/), "elementwise squared difference"; the notebook adds that
    "we align the index of both the Series by resetting it".  Series with
    the same index are combined position by position; otherwise each
    label of either index (sorted) gets the value where both series have
    it and a missing value elsewhere. *)
Definition series_binop (f : R → R → R) (a b : Series) : Series :=
  if decide (a.*1 = b.*1)
  then zip_with (λ x y : Z * option R, (x.1, lift2 f x.2 y.2)) a b
  else (λ l, (l, lift2 f (series_lookup a l) (series_lookup b l)))
         <$> merge_sort Z.le (remove_dups (a.*1 ++ b.*1)).

Definition series_sub : Series → Series → Series := series_binop Rminus.

(** Modelled from the spec: [s ** n] (cudf is not under src/),
    "elementwise squared difference". *)
Definition series_pow (s : Series) (n : nat) : Series :=
  (λ e : Z * option R, (e.1, (λ v, v ^ n)%R <$> e.2)) <$> s.

(** The values that are not missing. *)
Definition valid (s : Series) : list R := omap snd s.

Definition sum_R (l : list R) : R := foldr Rplus 0%R l.
Definition sum_nat (l : list nat) : nat := foldr Nat.add 0%nat l.

Definition series_sum (s : Series) : R := sum_R (valid s).
Definition series_count (s : Series) : nat := length (valid s).

(** A sum over a count; not a number when nothing is counted. *)
Definition divide (total : R) (count : nat) : option R :=
  if decide (count = 0%nat) then None else Some (total / INR count)%R.

(** Modelled from the spec: [Series.mean()] (cudf is not under src/),
    "mean": the sum of the values present over their number. *)
Definition series_mean (s : Series) : option R :=
  divide (series_sum s) (series_count s).

(** Modelled from the spec: arithmetic between two distributed series
    (dask_cudf is not under src/) whose divisions are unknown, as after
    [reset_index]: partition by partition, for the same number of
    partitions. *)
Definition dask_binop (f : R → R → R) (a b : DaskSeries) : outcome DaskSeries :=
  if decide (length a = length b)
  then Ok (zip_with (series_binop f) a b)
  else Raise ValueError.

Definition dask_sub : DaskSeries → DaskSeries → outcome DaskSeries :=
  dask_binop Rminus.

Definition dask_pow (ds : DaskSeries) (n : nat) : DaskSeries :=
  (λ s : Series, series_pow s n) <$> ds.

(** Modelled from the spec: [ds.mean().compute()] (dask_cudf is not under
    src/), "mean": every partition reports its sum and its count, and the
    mean is the sum of the sums over the sum of the counts. *)
Definition dask_mean (ds : DaskSeries) : option R :=
  divide (sum_R (series_sum <$> ds)) (sum_nat (series_count <$> ds)).

(** Modelled from the spec: [ds.compute()] on a distributed series
    (dask_cudf is not under src/): the partitions one after the other,
    each with the index it has. *)
Definition dask_series_compute (ds : DaskSeries) : Series := concat ds.

(** [cupy.sqrt], "square root": not a number below zero. *)
Definition cupy_sqrt (x : option R) : option R :=
  x ≫= λ v, if Rlt_dec v 0 then None else Some (sqrt v).

(** Modelled from the spec: [array - series] for a device array and a
    series (cudf is not under src/), "elementwise": position by position,
    the result carrying the index of the series; the lengths have to
    agree. *)
Definition array_sub_series (a : list R) (s : Series) : outcome Series :=
  if decide (length a = length s)
  then Ok (zip_with (λ x (e : Z * option R), (e.1, (λ v, x - v)%R <$> e.2)) a s)
  else Raise ValueError.

(** *** The two metric computations

    Method 1, from the partitions returned by [xgb.dask.predict] and
    [true = Y_test['x']]:
<<
    pred = pred.map_partitions(lambda part: cudf.Series(part))
    pred = pred.reset_index(drop=True)
    true = true.reset_index(drop=True)
    squared_error = ((pred - true)**2)
    rmse = cupy.sqrt(squared_error.mean().compute())
>> *)
Definition rmse_method1 (pred : list (list R)) (true_ : DaskSeries)
  : outcome (option R) :=
  let pred := series_of_array <$> pred in
  let pred := dask_reset_index pred in
  let true_ := dask_reset_index true_ in
  d ← dask_sub pred true_;
  let squared_error := dask_pow d 2 in
  Ok (cupy_sqrt (dask_mean squared_error)).

(** Method 2, from the array returned by [booster.inplace_predict] and
    [true = Y_test['x']]:
<<
    true = true.reset_index(drop=True).compute()
    squared_error = ((pred - true)**2)
    rmse = cupy.sqrt(squared_error.mean())
>> *)
Definition rmse_method2 (pred : list R) (true_ : DaskSeries)
  : outcome (option R) :=
  let true_ := dask_series_compute (dask_reset_index true_) in
  d ← array_sub_series pred true_;
  let squared_error := series_pow d 2 in
  Ok (cupy_sqrt (series_mean squared_error)).

(** *** The reference metric, in the words of the spec

    "root-mean-squared-error between predictions and held-out labels":
    "elementwise squared difference, mean, square root".  The mean of no
    value at all is not a number. *)
Definition squared_differences (pred labels : list R) : list R :=
  zip_with (λ p t, (p - t) ^ 2)%R pred labels.

Definition arithmetic_mean (l : list R) : option R :=
  match l with
  | [] => None
  | _ => Some (sum_R l / INR (length l))%R
  end.

Definition rmse_reference (pred labels : list R) : option R :=
  sqrt <$> arithmetic_mean (squared_differences pred labels).

(** ** The kernel: objects, state, external calls *)

(** Objects of the external libraries (dask, dask_cuda, xgboost) are
    opaque to the notebook. *)
Class Handles := {
  Process : Type;
  Cluster : Type;
  Client : Type;
  DMatrix : Type;
  Booster : Type
}.

Section Values.
Context `{Handles}.

(** Python values bound to the names of the notebook.  The booster and the
    evaluation history live in the heap and are reached through a
    reference: [booster] and [trained_model["booster"]] are one object. *)
#[warnings="-register-all"] Inductive pyobj :=
| VNone
| VInt (z : Z)
| VStr (s : string)
| VBytes (b : list Byte.byte)
| VFloat (x : option R)
| VDict (d : gmap string pyobj)
| VRef (l : positive)
| VProcess (p : Process)
| VCluster (c : Cluster)
| VClient (c : Client)
| VDMatrix (m : DMatrix)
| VFutures
| VFrame (df : DataFrame)
| VDaskFrame (d : DaskDataFrame)
| VDaskArrays (parts : list (list R))
| VDaskSeries (ds : DaskSeries)
| VDaskScalar (x : option R)
| VSeries (s : Series)
| VArray (a : list R).

(** The spec's evaluation history: "a mapping from evaluation-set name to
    a sequence of per-round metric values". *)
Inductive hobj :=
| HBooster (b : Booster)
| HHistory (h : gmap string (list R)).

(** Calls that leave the notebook for an external library. *)
Inductive call :=
| call_import
| call_Popen (argv : list string)
| call_communicate
| call_decode
| call_LocalCUDACluster (ip : string)
| call_Client
| call_randint (low high size : Z)
| call_normal (size : Z)
| call_wait
| call_DaskDMatrix
| call_train (params : gmap string pyobj) (num_boost_round : pyobj)
| call_set_param (args : list (string * string))
| call_predict
| call_inplace_predict.

(** One entry of the log: the call, the process environment it ran in,
    and the exception it raised, if any. *)
Record entry := Entry {
  callee : call;
  env_at : gmap string string;
  raised : option exn
}.

Record kernel := Kernel {
  environ : gmap string string;
  globals : gmap string pyobj;
  heap : gmap positive hobj;
  calls : list entry;
  stdout : list (list pyobj)
}.

(** Log entries of calls that returned without raising. *)
Definition returned (l : list entry) : Prop :=
  Forall (λ en, raised en = None) l.

(** The variable that [%env NCCL_P2P_DISABLE=1] sets is "1" now and was
    "1" for every external call so far. *)
Definition p2p_disabled (k : kernel) : Prop :=
  environ k !! "NCCL_P2P_DISABLE" = Some "1"
  ∧ ∀ en, en ∈ calls k → env_at en !! "NCCL_P2P_DISABLE" = Some "1".

(** A kernel that has just started in a process with environment [env]. *)
Definition boot (env : gmap string string) : kernel :=
  Kernel env ∅ ∅ [] [].

(** Statements run in a state and exception monad; the state survives an
    exception, as the kernel survives a failed cell. *)
Definition M (A : Type) : Type := kernel → outcome A * kernel.

#[global] Instance M_ret : MRet M := λ A a k, (Ok a, k).
#[global] Instance M_bind : MBind M := λ A B f m k,
  match m k with
  | (Ok a, k') => f a k'
  | (Raise e, k') => (Raise e, k')
  end.

Definition lift {A} (o : outcome A) : M A := λ k, (o, k).

Definition lookup_name (v : string) : M pyobj := λ k,
  (from_option Ok (Raise (NameError v)) (globals k !! v), k).

Definition assign (v : string) (x : pyobj) : M () := λ k,
  (Ok (), Kernel (environ k) (<[v := x]> (globals k)) (heap k) (calls k) (stdout k)).

Definition getenv : M (gmap string string) := λ k, (Ok (environ k), k).

Definition putenv (var value : string) : M () := λ k,
  (Ok (), Kernel (<[var := value]> (environ k)) (globals k) (heap k) (calls k) (stdout k)).

Definition load (l : positive) : M hobj := λ k,
  (from_option Ok (Raise TypeError) (heap k !! l), k).

Definition store (l : positive) (o : hobj) : M () := λ k,
  (Ok (), Kernel (environ k) (globals k) (<[l := o]> (heap k)) (calls k) (stdout k)).

(** A new object at an address not in use. *)
Definition alloc (o : hobj) : M positive := λ k,
  let l := fresh (dom (heap k)) in
  (Ok l, Kernel (environ k) (globals k) (<[l := o]> (heap k)) (calls k) (stdout k)).

Definition print (xs : list pyobj) : M () := λ k,
  (Ok (), Kernel (environ k) (globals k) (heap k) (calls k) (stdout k ++ [xs])).

(** An external call: logged with the environment of the moment and with
    what it raised, and its result or exception handed on. *)
Definition external {A} (c : call) (result : outcome A) : M A := λ k,
  let err := match result with Ok _ => None | Raise e => Some e end in
  (result,
   Kernel (environ k) (globals k) (heap k)
     (calls k ++ [Entry c (environ k) err]) (stdout k)).

End Values.

(** What the notebook asks of the libraries it imports.  Each operation is
    a function of its arguments that returns or raises: it reads what it
    is given and writes neither the process environment nor the names or
    the heap of the kernel (the workers of the cluster are processes of
    their own).  The cluster and the client start worker processes and
    read the process environment.  [mapped_predict] is the function that
    [xgb.dask.predict] maps over the partitions of the data (the task
    graph printed under In [9] names it); it returns one prediction per
    row of the partition it is given. *)
Class External `{Handles} := {
  import_modules : outcome ();
  subprocess_Popen : list string → outcome Process;
  communicate : Process → outcome (list Byte.byte);
  bytes_decode : list Byte.byte → outcome string;
  LocalCUDACluster : gmap string string → string → outcome Cluster;
  Client_connect : gmap string string → Cluster → outcome Client;
  cupy_random_randint : Z → Z → Z → outcome (list Z);
  cupy_random_normal : Z → outcome (list spec_float);
  xgb_version : string;
  wait : list DaskDataFrame → outcome ();
  DaskDMatrix : Client → DaskDataFrame → DaskDataFrame → outcome DMatrix;
  xgb_train : Client → gmap string pyobj → DMatrix → pyobj
              → outcome (Booster * gmap string (list R));
  Booster_set_param : Booster → list (string * string) → outcome Booster;
  mapped_predict : Booster → DataFrame → outcome (list R);
  mapped_predict_shape : ∀ b part v,
    mapped_predict b part = Ok v → length v = length (rows part);
  inplace_predict : Booster → DataFrame → outcome (list R)
}.

(** ** The statements of the notebook *)

(** The statements of the code cells, in the order of the source.  The
    import lines of In [3] are one statement; [%%time] only measures. *)
Inductive stmt :=
| S_env | S_import | S_cmd | S_process | S_communicate | S_IPADDR
| S_cluster | S_client | S_show_client
| S_size | S_npartitions | S_cdf | S_ddf
| S_X_train_query | S_Y_train | S_X_train
| S_X_test_query | S_Y_test | S_X_test
| S_version | S_done | S_dtrain
| S_params | S_train
| S_booster | S_history | S_set_param
| S1_pred | S_true | S1_map_partitions | S1_pred_reset | S1_true_reset
| S_squared_error | S1_rmse | S_print
| S2_pred | S2_true_reset | S2_rmse.

#[global] Instance stmt_eq_dec : EqDecision stmt.
Proof. solve_decision. Defined.

Definition cell_env : list stmt := [S_env].
Definition cell_cluster : list stmt :=
  [S_import; S_cmd; S_process; S_communicate; S_IPADDR;
   S_cluster; S_client; S_show_client].
Definition cell_dataset : list stmt :=
  [S_size; S_npartitions; S_cdf; S_ddf;
   S_X_train_query; S_Y_train; S_X_train;
   S_X_test_query; S_Y_test; S_X_test].
Definition cell_version : list stmt := [S_version].
Definition cell_dmatrix : list stmt := [S_done; S_dtrain].
Definition cell_train : list stmt := [S_params; S_train].
Definition cell_model : list stmt := [S_booster; S_history; S_set_param].
Definition cell_method1 : list stmt :=
  [S1_pred; S_true; S1_map_partitions; S1_pred_reset; S1_true_reset;
   S_squared_error; S1_rmse; S_print].
Definition cell_method2 : list stmt :=
  [S2_pred; S_true; S2_true_reset; S_squared_error; S2_rmse; S_print].

Definition notebook : list stmt :=
  cell_env ++ cell_cluster ++ cell_dataset ++ cell_version ++ cell_dmatrix
  ++ cell_train ++ cell_model ++ cell_method1 ++ cell_method2.

(** The names a statement binds. *)
Definition targets (s : stmt) : list string :=
  match s with
  | S_cmd => ["cmd"]
  | S_process => ["process"]
  | S_communicate => ["output"; "error"]
  | S_IPADDR => ["IPADDR"]
  | S_cluster => ["cluster"]
  | S_client => ["client"]
  | S_size => ["size"]
  | S_npartitions => ["npartitions"]
  | S_cdf => ["cdf"]
  | S_ddf => ["ddf"]
  | S_X_train_query | S_X_train => ["X_train"]
  | S_Y_train => ["Y_train"]
  | S_X_test_query | S_X_test => ["X_test"]
  | S_Y_test => ["Y_test"]
  | S_done => ["done"]
  | S_dtrain => ["dtrain"]
  | S_params => ["params"]
  | S_train => ["trained_model"]
  | S_booster => ["booster"]
  | S_history => ["history"]
  | S1_pred | S1_map_partitions | S1_pred_reset | S2_pred => ["pred"]
  | S_true | S1_true_reset | S2_true_reset => ["true"]
  | S_squared_error => ["squared_error"]
  | S1_rmse | S2_rmse => ["rmse"]
  | S_env | S_import | S_show_client | S_version | S_set_param | S_print => []
  end.

Section Notebook.
Context `{External}.

(** The calls that start the distributed runtime, and the training call. *)
Definition starts_runtime (c : call) : bool :=
  match c with
  | call_LocalCUDACluster _ | call_Client => true
  | _ => false
  end.

Definition is_train (c : call) : bool :=
  match c with
  | call_train _ _ => true
  | _ => false
  end.

(** Views of a value at the type an operation needs. *)
Definition as_int (x : pyobj) : outcome Z :=
  match x with VInt z => Ok z | _ => Raise TypeError end.
Definition as_str (x : pyobj) : outcome string :=
  match x with VStr s => Ok s | _ => Raise TypeError end.
Definition as_bytes (x : pyobj) : outcome (list Byte.byte) :=
  match x with VBytes b => Ok b | _ => Raise TypeError end.
Definition as_dict (x : pyobj) : outcome (gmap string pyobj) :=
  match x with VDict d => Ok d | _ => Raise TypeError end.
Definition as_ref (x : pyobj) : outcome positive :=
  match x with VRef l => Ok l | _ => Raise TypeError end.
Definition as_process (x : pyobj) : outcome Process :=
  match x with VProcess p => Ok p | _ => Raise TypeError end.
Definition as_cluster (x : pyobj) : outcome Cluster :=
  match x with VCluster c => Ok c | _ => Raise TypeError end.
Definition as_client (x : pyobj) : outcome Client :=
  match x with VClient c => Ok c | _ => Raise TypeError end.
Definition as_dmatrix (x : pyobj) : outcome DMatrix :=
  match x with VDMatrix m => Ok m | _ => Raise TypeError end.
Definition as_frame (x : pyobj) : outcome DataFrame :=
  match x with VFrame df => Ok df | _ => Raise TypeError end.
Definition as_dask (x : pyobj) : outcome DaskDataFrame :=
  match x with VDaskFrame d => Ok d | _ => Raise TypeError end.
Definition as_arrays (x : pyobj) : outcome (list (list R)) :=
  match x with VDaskArrays p => Ok p | _ => Raise TypeError end.
Definition as_booster (o : hobj) : outcome Booster :=
  match o with HBooster b => Ok b | _ => Raise TypeError end.

(** [name] read at a type. *)
Definition name_as {A} (view : pyobj → outcome A) (v : string) : M A :=
  x ← lookup_name v; lift (view x).

(** [d[key]] on a dictionary. *)
Definition dict_getitem (d : gmap string pyobj) (key : string) : outcome pyobj :=
  from_option Ok (Raise (KeyError key)) (d !! key).

(** The object behind the name [booster]. *)
Definition booster_object : M (positive * Booster) :=
  l ← name_as as_ref "booster";
  o ← load l;
  b ← lift (as_booster o);
  mret (l, b).

(** Methods and operators that the notebook applies to values of more than
    one type. *)
Definition py_reset_index (x : pyobj) : outcome pyobj :=
  match x with
  | VDaskSeries ds => Ok (VDaskSeries (dask_reset_index ds))
  | VSeries s => Ok (VSeries (reset_index s))
  | _ => Raise TypeError
  end.

Definition py_compute (x : pyobj) : outcome pyobj :=
  match x with
  | VDaskSeries ds => Ok (VSeries (dask_series_compute ds))
  | VDaskFrame d => Ok (VFrame (dask_compute d))
  | VDaskScalar v => Ok (VFloat v)
  | _ => Raise TypeError
  end.

Definition py_sub (x y : pyobj) : outcome pyobj :=
  match x, y with
  | VDaskSeries a, VDaskSeries b => VDaskSeries <$> dask_sub a b
  | VSeries a, VSeries b => Ok (VSeries (series_sub a b))
  | VArray a, VSeries b => VSeries <$> array_sub_series a b
  | _, _ => Raise TypeError
  end.

Definition py_pow (x : pyobj) (n : nat) : outcome pyobj :=
  match x with
  | VDaskSeries ds => Ok (VDaskSeries (dask_pow ds n))
  | VSeries s => Ok (VSeries (series_pow s n))
  | _ => Raise TypeError
  end.

Definition py_mean (x : pyobj) : outcome pyobj :=
  match x with
  | VDaskSeries ds => Ok (VDaskScalar (dask_mean ds))
  | VSeries s => Ok (VFloat (series_mean s))
  | _ => Raise TypeError
  end.

Definition py_sqrt (x : pyobj) : outcome pyobj :=
  match x with
  | VFloat v => Ok (VFloat (cupy_sqrt v))
  | _ => Raise TypeError
  end.

(** The hyperparameters of In [7]. *)
Definition params_dict : gmap string pyobj :=
  list_to_map
    [("num_rounds", VInt 100);
     ("max_depth", VInt 8);
     ("max_leaves", VInt (2 ^ 8));
     ("tree_method", VStr "gpu_hist");
     ("objective", VStr "reg:squarederror");
     ("grow_policy", VStr "lossguide")].

(** The dictionary that the training call returns: the booster and the
    evaluation history, by reference. *)
Definition trained_model_dict (lb lh : positive) : gmap string pyobj :=
  <["booster" := VRef lb]> (<["history" := VRef lh]> ∅).

(** One statement. *)
Definition exec (s : stmt) : M () :=
  match s with
  | S_env =>
      (* %env NCCL_P2P_DISABLE=1 *)
      putenv "NCCL_P2P_DISABLE" "1"
  | S_import =>
      external call_import import_modules
  | S_cmd =>
      assign "cmd" (VStr "hostname --all-ip-addresses")
  | S_process =>
      (* process = subprocess.Popen(cmd.split(), stdout=subprocess.PIPE) *)
      cmd ← name_as as_str "cmd";
      p ← external (call_Popen (str_split cmd)) (subprocess_Popen (str_split cmd));
      assign "process" (VProcess p)
  | S_communicate =>
      (* output, error = process.communicate() *)
      p ← name_as as_process "process";
      out ← external call_communicate (communicate p);
      _ ← assign "output" (VBytes out);
      assign "error" VNone
  | S_IPADDR =>
      (* IPADDR = str(output.decode()).split()[0] *)
      output ← name_as as_bytes "output";
      text ← external call_decode (bytes_decode output);
      ip ← lift (first_token text);
      assign "IPADDR" (VStr ip)
  | S_cluster =>
      (* cluster = LocalCUDACluster(ip=IPADDR) *)
      ip ← name_as as_str "IPADDR";
      env ← getenv;
      c ← external (call_LocalCUDACluster ip) (LocalCUDACluster env ip);
      assign "cluster" (VCluster c)
  | S_client =>
      (* client = Client(cluster) *)
      c ← name_as as_cluster "cluster";
      env ← getenv;
      cl ← external call_Client (Client_connect env c);
      assign "client" (VClient cl)
  | S_show_client =>
      _ ← lookup_name "client"; mret ()
  | S_size =>
      assign "size" (VInt size)
  | S_npartitions =>
      assign "npartitions" (VInt npartitions)
  | S_cdf =>
      (* cdf = cudf.DataFrame({'x': cupy.random.randint(0, npartitions, size=size),
                               'y': cupy.random.normal(size=size)}) *)
      n ← name_as as_int "npartitions";
      sz ← name_as as_int "size";
      xs ← external (call_randint 0 n sz) (cupy_random_randint 0 n sz);
      sz' ← name_as as_int "size";
      ys ← external (call_normal sz') (cupy_random_normal sz');
      cdf ← lift (cudf_DataFrame ("x", IntColumn xs) ("y", FloatColumn ys));
      assign "cdf" (VFrame cdf)
  | S_ddf =>
      (* ddf = dask_cudf.from_cudf(cdf,npartitions=npartitions) *)
      cdf ← name_as as_frame "cdf";
      n ← name_as as_int "npartitions";
      ddf ← lift (from_cudf cdf n);
      assign "ddf" (VDaskFrame ddf)
  | S_X_train_query =>
      (* X_train = ddf.query('y < 0.5') *)
      ddf ← name_as as_dask "ddf";
      t ← lift (dask_query (the_query OpLt) ddf);
      assign "X_train" (VDaskFrame t)
  | S_Y_train =>
      (* Y_train = X_train[['x']] *)
      t ← name_as as_dask "X_train";
      y ← lift (target t);
      assign "Y_train" (VDaskFrame y)
  | S_X_train =>
      (* X_train = X_train[X_train.columns.difference(['x'])] *)
      t ← name_as as_dask "X_train";
      x ← lift (features t);
      assign "X_train" (VDaskFrame x)
  | S_X_test_query =>
      (* X_test = ddf.query('y > 0.5') *)
      ddf ← name_as as_dask "ddf";
      t ← lift (dask_query (the_query OpGt) ddf);
      assign "X_test" (VDaskFrame t)
  | S_Y_test =>
      (* Y_test = X_test[['x']] *)
      t ← name_as as_dask "X_test";
      y ← lift (target t);
      assign "Y_test" (VDaskFrame y)
  | S_X_test =>
      (* X_test = X_test[X_test.columns.difference(['x'])] *)
      t ← name_as as_dask "X_test";
      x ← lift (features t);
      assign "X_test" (VDaskFrame x)
  | S_version =>
      (* xgb.__version__ *)
      mret ()
  | S_done =>
      (* done = wait([X_train, Y_train]) *)
      x ← name_as as_dask "X_train";
      y ← name_as as_dask "Y_train";
      _ ← external call_wait (wait [x; y]);
      assign "done" VFutures
  | S_dtrain =>
      (* dtrain = xgb.dask.DaskDMatrix(client, X_train, Y_train) *)
      client ← name_as as_client "client";
      x ← name_as as_dask "X_train";
      y ← name_as as_dask "Y_train";
      m ← external call_DaskDMatrix (DaskDMatrix client x y);
      assign "dtrain" (VDMatrix m)
  | S_params =>
      assign "params" (VDict params_dict)
  | S_train =>
      (* trained_model = xgb.dask.train(client,params, dtrain,
                                        num_boost_round=params['num_rounds'])
         The call "returns a dictionary containing the resulting booster
         and evaluation history". *)
      client ← name_as as_client "client";
      params ← name_as as_dict "params";
      dtrain ← name_as as_dmatrix "dtrain";
      params' ← name_as as_dict "params";
      rounds ← lift (dict_getitem params' "num_rounds");
      r ← external (call_train params rounds) (xgb_train client params dtrain rounds);
      lb ← alloc (HBooster r.1);
      lh ← alloc (HHistory r.2);
      assign "trained_model" (VDict (trained_model_dict lb lh))
  | S_booster =>
      (* booster = trained_model["booster"] *)
      tm ← name_as as_dict "trained_model";
      b ← lift (dict_getitem tm "booster");
      assign "booster" b
  | S_history =>
      (* history = trained_model['history'] *)
      tm ← name_as as_dict "trained_model";
      h ← lift (dict_getitem tm "history");
      assign "history" h
  | S_set_param =>
      (* booster.set_param({'predictor': 'gpu_predictor'}) *)
      lb ← booster_object;
      let args := [("predictor", "gpu_predictor")] in
      b' ← external (call_set_param args) (Booster_set_param lb.2 args);
      store lb.1 (HBooster b')
  | S1_pred =>
      (* pred = xgb.dask.predict(client,booster, X_test) *)
      _ ← name_as as_client "client";
      lb ← booster_object;
      x ← name_as as_dask "X_test";
      parts ← external call_predict (traverse (mapped_predict lb.2) (partitions x));
      assign "pred" (VDaskArrays parts)
  | S_true =>
      (* true = Y_test['x'] *)
      y ← name_as as_dask "Y_test";
      t ← lift (dask_column_series "x" y);
      assign "true" (VDaskSeries t)
  | S1_map_partitions =>
      (* pred = pred.map_partitions(lambda part: cudf.Series(part)) *)
      parts ← name_as as_arrays "pred";
      assign "pred" (VDaskSeries (series_of_array <$> parts))
  | S1_pred_reset =>
      (* pred = pred.reset_index(drop=True) *)
      p ← lookup_name "pred";
      p' ← lift (py_reset_index p);
      assign "pred" p'
  | S1_true_reset =>
      (* true = true.reset_index(drop=True) *)
      t ← lookup_name "true";
      t' ← lift (py_reset_index t);
      assign "true" t'
  | S_squared_error =>
      (* squared_error = ((pred - true)**2) *)
      p ← lookup_name "pred";
      t ← lookup_name "true";
      d ← lift (py_sub p t);
      sq ← lift (py_pow d 2);
      assign "squared_error" sq
  | S1_rmse =>
      (* rmse = cupy.sqrt(squared_error.mean().compute()) *)
      sq ← lookup_name "squared_error";
      m ← lift (py_mean sq);
      m' ← lift (py_compute m);
      r ← lift (py_sqrt m');
      assign "rmse" r
  | S_print =>
      (* print('rmse value:', rmse) *)
      r ← lookup_name "rmse";
      print [VStr "rmse value:"; r]
  | S2_pred =>
      (* pred = booster.inplace_predict(data=X_test.compute()) *)
      lb ← booster_object;
      x ← lookup_name "X_test";
      data ← lift (py_compute x ≫= as_frame);
      p ← external call_inplace_predict (inplace_predict lb.2 data);
      assign "pred" (VArray p)
  | S2_true_reset =>
      (* true = true.reset_index(drop=True).compute() *)
      t ← lookup_name "true";
      t' ← lift (py_reset_index t);
      t'' ← lift (py_compute t');
      assign "true" t''
  | S2_rmse =>
      (* rmse = cupy.sqrt(squared_error.mean()) *)
      sq ← lookup_name "squared_error";
      m ← lift (py_mean sq);
      r ← lift (py_sqrt m);
      assign "rmse" r
  end.

(** What holds of the training call at every point of a run: the name
    [params] is bound to the hyperparameters of In [7] or not at all,
    every training call so far was made with them and with 100 rounds,
    and [trained_model] is bound, if at all, to a dictionary whose entries
    ['booster'] and ['history'] refer to a booster and to an evaluation
    history in the heap. *)
Definition training_invariant (k : kernel) : Prop :=
  (∀ x, globals k !! "params" = Some x → x = VDict params_dict)
  ∧ (∀ en p r, en ∈ calls k → callee en = call_train p r →
               p = params_dict ∧ r = VInt 100)
  ∧ (∀ tm, globals k !! "trained_model" = Some tm →
           ∃ lb lh b h,
             tm = VDict (trained_model_dict lb lh)
             ∧ heap k !! lb = Some (HBooster b)
             ∧ heap k !! lh = Some (HHistory h)).

(** The two cells that compute the metric, as functions of the booster and
    of the test set: the prediction call, [true = Y_test['x']], and the
    metric computation. *)
Definition method1 (b : Booster) (X_test Y_test : DaskDataFrame)
  : outcome (option R) :=
  pred ← traverse (mapped_predict b) (partitions X_test);
  true_ ← dask_column_series "x" Y_test;
  rmse_method1 pred true_.

Definition method2 (b : Booster) (X_test Y_test : DaskDataFrame)
  : outcome (option R) :=
  pred ← inplace_predict b (dask_compute X_test);
  true_ ← dask_column_series "x" Y_test;
  rmse_method2 pred true_.

(** Statements run one after the other; the first exception ends the run
    and is its result.  Nothing catches it. *)
Fixpoint run (prog : list stmt) (k : kernel) : outcome () * kernel :=
  match prog with
  | [] => (Ok (), k)
  | s :: rest =>
      match exec s k with
      | (Ok _, k') => run rest k'
      | (Raise e, k') => (Raise e, k')
      end
  end.

End Notebook.

(** ** A small library to run the notebook against

    [hostname] prints [hostname_output]; the cluster constructor is
    [cluster]; the generators return four rows whatever the size asked
    for; the booster is its list of parameters; both predictors answer
    with the index label of each row. *)

Definition toy_handles : Handles := {|
  Process := ();
  Cluster := string;
  Client := string;
  DMatrix := ();
  Booster := list (string * string)
|}.

Definition toy_predict (df : DataFrame) : list R :=
  (λ r, IZR (label r)) <$> rows df.

Lemma toy_predict_shape (b : list (string * string)) (part : DataFrame) (v : list R) :
  Ok (toy_predict part) = Ok v → length v = length (rows part).
Proof. intros [= <-]. apply length_fmap. Defined.

Definition toy_with (hostname_output : string)
    (cluster : gmap string string → string → outcome string)
  : @External toy_handles := {|
  import_modules := Ok ();
  subprocess_Popen := λ _, Ok () : outcome (@Process toy_handles);
  communicate := λ _, Ok (list_byte_of_string hostname_output);
  bytes_decode := λ b, Ok (string_of_list_byte b);
  LocalCUDACluster := cluster : _ → _ → outcome (@Cluster toy_handles);
  Client_connect := λ _ c, Ok c : outcome (@Client toy_handles);
  cupy_random_randint := λ _ _ _, Ok [3; 5; 1; 7];
  cupy_random_normal := λ _,
    Ok [S754_zero false; half; S754_finite false 4503599627370496 (-52);
        S754_finite true 4503599627370496 (-52)];
  xgb_version := "1.1.1";
  wait := λ _, Ok ();
  DaskDMatrix := λ _ _ _, Ok () : outcome (@DMatrix toy_handles);
  xgb_train := λ _ _ _ _,
    Ok ([("tree_method", "gpu_hist")], ∅) : outcome (@Booster toy_handles * _);
  Booster_set_param := λ b args, Ok (args ++ b) : outcome (@Booster toy_handles);
  mapped_predict := λ _ part, Ok (toy_predict part);
  mapped_predict_shape := toy_predict_shape;
  inplace_predict := λ _ df, Ok (toy_predict df)
|}.

(** A machine with an address and a device; one whose [hostname] prints
    nothing but a blank and a newline; one without a device. *)
Definition toy : @External toy_handles :=
  toy_with "10.33.227.157 172.17.0.1 " (λ _ ip, Ok ip).

Definition toy_no_address : @External toy_handles :=
  toy_with (String " " (String "010" "")) (λ _ ip, Ok ip).

Definition toy_no_device : @External toy_handles :=
  toy_with "10.33.227.157 172.17.0.1 "
    (λ _ _, Raise (LibraryError "no CUDA-capable device is detected")).

(** A test set of three shards, one of them empty. *)
Definition example_test : DaskDataFrame :=
  let schema := [("x", int64); ("y", float64)] in
  let one := CFloat (S754_finite false 4503599627370496 (-52)) in
  Dask schema
    [Frame schema [Row 2 [CInt 1; one]; Row 5 [CInt 4; one]];
     Frame schema [];
     Frame schema [Row 9 [CInt 0; one]]].

(** ** The external calls of the notebook, by name *)

Section Calls.
Context `{Handles}.

(** What a call calls, as the notebook writes it. *)
Definition call_name (c : call) : string :=
  match c with
  | call_import => "import"
  | call_Popen _ => "subprocess.Popen"
  | call_communicate => "process.communicate"
  | call_decode => "output.decode"
  | call_LocalCUDACluster _ => "LocalCUDACluster"
  | call_Client => "Client"
  | call_randint _ _ _ => "cupy.random.randint"
  | call_normal _ => "cupy.random.normal"
  | call_wait => "wait"
  | call_DaskDMatrix => "xgb.dask.DaskDMatrix"
  | call_train _ _ => "xgb.dask.train"
  | call_set_param _ => "booster.set_param"
  | call_predict => "xgb.dask.predict"
  | call_inplace_predict => "booster.inplace_predict"
  end.

Definition call_names (l : list entry) : list string :=
  (λ en, call_name (callee en)) <$> l.

End Calls.

(** The external calls that a statement makes, in the order in which it
    makes them. *)
Definition stmt_calls (s : stmt) : list string :=
  match s with
  | S_import => ["import"]
  | S_process => ["subprocess.Popen"]
  | S_communicate => ["process.communicate"]
  | S_IPADDR => ["output.decode"]
  | S_cluster => ["LocalCUDACluster"]
  | S_client => ["Client"]
  | S_cdf => ["cupy.random.randint"; "cupy.random.normal"]
  | S_done => ["wait"]
  | S_dtrain => ["xgb.dask.DaskDMatrix"]
  | S_train => ["xgb.dask.train"]
  | S_set_param => ["booster.set_param"]
  | S1_pred => ["xgb.dask.predict"]
  | S2_pred => ["booster.inplace_predict"]
  | _ => []
  end.

(** The external calls of the whole notebook, in the order of the
    source. *)
Definition external_calls : list string :=
  ["import"; "subprocess.Popen"; "process.communicate"; "output.decode";
   "LocalCUDACluster"; "Client";
   "cupy.random.randint"; "cupy.random.normal";
   "wait"; "xgb.dask.DaskDMatrix"; "xgb.dask.train"; "booster.set_param";
   "xgb.dask.predict"; "booster.inplace_predict"].

(** ** The notebook as one function

    What the cells compute from the process environment and the answers
    of the libraries, with every name replaced by the value that the
    statement before bound to it. *)

Section Dataflow.
Context `{External}.

(** The cells up to [booster.set_param]: the client, the booster with the
    predictor set, and the features and the labels of the test subset; or
    the first exception. *)
Definition prepare (env : gmap string string)
  : outcome (Client * Booster * DaskDataFrame * DaskDataFrame) :=
  let env := <["NCCL_P2P_DISABLE" := "1"]> env in
  _ ← import_modules;
  let cmd := "hostname --all-ip-addresses" in
  process ← subprocess_Popen (str_split cmd);
  output ← communicate process;
  text ← bytes_decode output;
  IPADDR ← first_token text;
  cluster ← LocalCUDACluster env IPADDR;
  client ← Client_connect env cluster;
  xs ← cupy_random_randint 0 npartitions size;
  ys ← cupy_random_normal size;
  cdf ← cudf_DataFrame ("x", IntColumn xs) ("y", FloatColumn ys);
  ddf ← from_cudf cdf npartitions;
  train ← dask_query (the_query OpLt) ddf;
  Y_train ← target train;
  X_train ← features train;
  test ← dask_query (the_query OpGt) ddf;
  Y_test ← target test;
  X_test ← features test;
  _ ← wait [X_train; Y_train];
  dtrain ← DaskDMatrix client X_train Y_train;
  trained_model ← xgb_train client params_dict dtrain (VInt 100);
  booster ← Booster_set_param trained_model.1 [("predictor", "gpu_predictor")];
  Ok (client, booster, X_test, Y_test).

(** The whole notebook: the metric of Method 1 and the metric of
    Method 2, or the first exception. *)
Definition dataflow (env : gmap string string) : outcome (option R * option R) :=
  '(client, booster, X_test, Y_test) ← prepare env;
  rmse1 ← method1 booster X_test Y_test;
  rmse2 ← method2 booster X_test Y_test;
  Ok (rmse1, rmse2).

(** The statements before the two metric cells. *)
Definition cells_before_metric : list stmt :=
  cell_env ++ cell_cluster ++ cell_dataset ++ cell_version ++ cell_dmatrix
  ++ cell_train ++ cell_model.

End Dataflow.

(** ** Part II: properties *)

(** *** The address of the cluster *)

Example cmd_split :
  str_split "hostname --all-ip-addresses" = ["hostname"; "--all-ip-addresses"].
Proof. reflexivity. Qed.

Example first_token_hostname :
  first_token ("10.33.227.157 172.17.0.1 " +:+ String (ascii_of_nat 10) "")
  = Ok "10.33.227.157".
Proof. reflexivity. Qed.

Lemma append_cons (c : ascii) (a b : string) :
  String c a +:+ b = String c (a +:+ b).
Proof. reflexivity. Qed.

Lemma append_empty_l (s : string) : "" +:+ s = s.
Proof. reflexivity. Qed.

Lemma append_empty_r (s : string) : s +:+ "" = s.
Proof. induction s as [|c s IH]; [done |]. by rewrite append_cons, IH. Qed.

Lemma append_snoc (a : string) (c : ascii) (b : string) :
  (a +:+ String c "") +:+ b = a +:+ String c b.
Proof. induction a as [|x a IH]; [done |]. by rewrite !append_cons, IH. Qed.

Lemma split_whitespace_blank tok s :
  blank s = true →
  split_whitespace tok s = if decide (tok = "") then [] else [tok].
Proof.
  revert tok. induction s as [|c s IH]; intros tok Hb; simpl in *; [done |].
  apply andb_prop in Hb as [Hc Hs]. rewrite Hc.
  case_decide; rewrite IH by done; [done |].
  by rewrite decide_True.
Qed.

Lemma split_whitespace_solid tok t rest :
  solid t = true →
  split_whitespace tok (t +:+ rest) = split_whitespace (tok +:+ t) rest.
Proof.
  revert tok. induction t as [|c t IH]; intros tok Hs.
  - by rewrite append_empty_r.
  - simpl in Hs. apply andb_prop in Hs as [Hc Ht]. apply negb_true_iff in Hc.
    rewrite <- (append_snoc tok c t), <- IH by done.
    rewrite append_cons. simpl. by rewrite Hc.
Qed.

Lemma split_whitespace_skip ws s :
  blank ws = true →
  split_whitespace "" (ws +:+ s) = split_whitespace "" s.
Proof.
  induction ws as [|c ws IH]; intros Hb; [done |].
  simpl in Hb. apply andb_prop in Hb as [Hc Hs].
  rewrite append_cons. simpl. rewrite Hc. by apply IH.
Qed.

Lemma split_whitespace_token_end tok rest :
  tok ≠ "" → token_end rest = true →
  ∃ more, split_whitespace tok rest = tok :: more.
Proof.
  intros Hne He. destruct rest as [|c rest]; simpl in *.
  - rewrite decide_False by done. by eexists.
  - rewrite He, decide_False by done. by eexists.
Qed.

Lemma first_token_of ws tok rest :
  blank ws = true → solid tok = true → tok ≠ "" → token_end rest = true →
  first_token (ws +:+ tok +:+ rest) = Ok tok.
Proof.
  intros Hws Htok Hne Hrest. unfold first_token, str_split.
  rewrite split_whitespace_skip, split_whitespace_solid by done.
  rewrite append_empty_l.
  destruct (split_whitespace_token_end tok rest Hne Hrest) as [more ->].
  reflexivity.
Qed.

Lemma first_token_blank text :
  blank text = true → first_token text = Raise IndexError.
Proof.
  intros Hb. unfold first_token, str_split.
  by rewrite split_whitespace_blank.
Qed.

(** Every text that is not blank is some whitespace, a token, and a rest
    that is empty or begins with whitespace. *)
Lemma not_blank_token text :
  blank text = false →
  ∃ ws tok rest, text = ws +:+ tok +:+ rest ∧ blank ws = true
    ∧ solid tok = true ∧ tok ≠ "" ∧ token_end rest = true.
Proof.
  assert (Hsolid : ∀ s, ∃ tok rest,
             s = tok +:+ rest ∧ solid tok = true ∧ token_end rest = true).
  { induction s as [|c s (tok & rest & -> & Ht & Hr)].
    - by exists "", "".
    - destruct (isspace c) eqn:Hc.
      + exists "", (String c (tok +:+ rest)). by rewrite <- Hc.
      + exists (String c tok), rest. simpl. by rewrite Hc. }
  induction text as [|c text IH]; intros Hb; simpl in *; [done |].
  destruct (isspace c) eqn:Hc; simpl in *.
  - destruct (IH Hb) as (ws & tok & rest & -> & ? & ? & ? & ?).
    exists (String c ws), tok, rest. simpl. rewrite Hc. done.
  - destruct (Hsolid text) as (tok & rest & -> & Ht & Hr).
    exists "", (String c tok), rest. simpl. rewrite Hc. done.
Qed.

(** *** Tables *)

Lemma traverse_ok {A B} (f : A → outcome B) (g : A → B) (l : list A) :
  Forall (λ a, f a = Ok (g a)) l → traverse f l = Ok (g <$> l).
Proof.
  induction 1 as [|a l Ha _ IH]; simpl; [done |].
  by rewrite Ha, IH.
Qed.

Lemma traverse_fmap {A B C} (f : B → outcome C) (h : A → B) (l : list A) :
  traverse f (h <$> l) = traverse (f ∘ h) l.
Proof. induction l as [|a l IH]; csimpl; [done | by rewrite IH]. Qed.

Lemma traverse_length {A B} (f : A → outcome B) (l : list A) (bs : list B) :
  traverse f l = Ok bs → Forall2 (λ a b, f a = Ok b) l bs.
Proof.
  revert bs. induction l as [|a l IH]; intros bs Hbs; simpl in Hbs.
  - by inversion Hbs.
  - destruct (f a) as [b|] eqn:Hb; simpl in Hbs; [| done].
    destruct (traverse f l) as [bs'|]; simpl in Hbs; [| done].
    inversion Hbs; subst. constructor; auto.
Qed.

Lemma length_shards {A} (n c : nat) (l : list A) : length (shards n c l) = n.
Proof. revert l. induction n as [|n IH]; intros l; simpl; [done | by rewrite IH]. Qed.

Lemma concat_shards {A} (n c : nat) (l : list A) :
  (length l ≤ n * c)%nat → concat (shards n c l) = l.
Proof.
  revert l. induction n as [|n IH]; intros l Hl; simpl in *.
  - destruct l; [done | simpl in Hl; lia].
  - rewrite IH; [apply take_drop |]. rewrite length_drop. lia.
Qed.

Lemma chunksize_covers (len n : nat) : (0 < n)%nat → (len ≤ n * chunksize len n)%nat.
Proof.
  intros Hn. unfold chunksize.
  pose proof (Nat.div_mod (len + n - 1) n ltac:(lia)) as Hdm.
  pose proof (Nat.mod_upper_bound (len + n - 1) n ltac:(lia)). lia.
Qed.

Lemma filter_concat {A} (P : A → Prop) `{∀ x, Decision (P x)} (ls : list (list A)) :
  filter P (concat ls) = concat (filter P <$> ls).
Proof.
  induction ls as [|l ls IH]; simpl; [done |].
  by rewrite filter_app, IH.
Qed.

Lemma SFcompare_antisym (a b : spec_float) :
  SFcompare b a = CompOpp <$> SFcompare a b.
Proof.
  destruct a as [s1|s1| |s1 m1 e1], b as [s2|s2| |s2 m2 e2];
    try destruct s1; try destruct s2; try reflexivity; simpl;
    rewrite (Z.compare_antisym e1 e2); destruct (e1 ?= e2) eqn:He; simpl;
    try reflexivity;
    rewrite (Pos.compare_cont_antisym m1 m2 Eq); simpl;
    by destruct (Pos.compare_cont Eq m1 m2).
Qed.

Lemma SFltb_asym (a b : spec_float) : SFltb a b = true → SFltb b a = false.
Proof.
  unfold SFltb. rewrite (SFcompare_antisym a b).
  by destruct (SFcompare a b) as [[]|].
Qed.

Lemma SFeqb_not_ltb (a b : spec_float) :
  SFeqb a b = true → SFltb a b = false ∧ SFltb b a = false.
Proof.
  unfold SFeqb, SFltb. rewrite (SFcompare_antisym a b).
  by destruct (SFcompare a b) as [[]|].
Qed.

(** The table of In [4], whatever the generators return. *)
Lemma cudf_DataFrame_xy xs ys cdf :
  cudf_DataFrame ("x", IntColumn xs) ("y", FloatColumn ys) = Ok cdf →
  length xs = length ys
  ∧ cdf = Frame [("x", int64); ("y", float64)]
            (imap (λ i v, Row (Z.of_nat i) [v.1; v.2])
               (zip (CInt <$> xs) (CFloat <$> ys))).
Proof.
  unfold cudf_DataFrame. simpl. rewrite !length_fmap.
  case_decide; [| done]. intros [= <-]. done.
Qed.

Lemma cudf_DataFrame_rows xs ys cdf r :
  cudf_DataFrame ("x", IntColumn xs) ("y", FloatColumn ys) = Ok cdf →
  r ∈ rows cdf ↔
  ∃ i x y, xs !! i = Some x ∧ ys !! i = Some y
           ∧ r = Row (Z.of_nat i) [CInt x; CFloat y].
Proof.
  intros [_ ->]%cudf_DataFrame_xy. simpl.
  rewrite elem_of_lookup_imap. split.
  - intros (i & [cx cy] & -> & Hi).
    apply lookup_zip_with_Some in Hi as (cx' & cy' & [= <- <-] & Hx & Hy).
    apply list_lookup_fmap_Some in Hx as (x & -> & Hx).
    apply list_lookup_fmap_Some in Hy as (y & -> & Hy).
    by exists i, x, y.
  - intros (i & x & y & Hx & Hy & ->).
    exists i, (CInt x, CFloat y). split; [done |].
    apply lookup_zip_with_Some. exists (CInt x), (CFloat y).
    by rewrite !list_lookup_fmap, Hx, Hy.
Qed.

Lemma cudf_DataFrame_labels xs ys cdf :
  cudf_DataFrame ("x", IntColumn xs) ("y", FloatColumn ys) = Ok cdf →
  NoDup (label <$> rows cdf).
Proof.
  intros [_ ->]%cudf_DataFrame_xy. simpl.
  rewrite fmap_imap.
  rewrite (imap_ext _ (λ i _, Z.of_nat i)) by done.
  rewrite imap_seq_0. apply NoDup_fmap_2; [apply _ | apply NoDup_seq].
Qed.

Lemma rows_Frame cols (l : list (list row)) : rows <$> (Frame cols <$> l) = l.
Proof. induction l as [|x l IH]; csimpl; [done | by rewrite IH]. Qed.

(** Sharding a table and putting the shards back together. *)
Lemma from_cudf_shards df n ddf :
  from_cudf df n = Ok ddf →
  meta ddf = columns df
  ∧ length (partitions ddf) = Z.to_nat n
  ∧ same_schema ddf
  ∧ concat (rows <$> partitions ddf) = rows df.
Proof.
  unfold from_cudf. case_decide as Hn; [| done]. intros [= <-]. simpl.
  repeat split.
  - by rewrite length_fmap, length_shards.
  - unfold same_schema. simpl. by apply Forall_fmap, Forall_true.
  - rewrite rows_Frame. apply concat_shards, chunksize_covers. lia.
Qed.

Lemma from_cudf_compute df n ddf :
  from_cudf df n = Ok ddf → dask_compute ddf = df.
Proof.
  intros (Hm & _ & _ & Hr)%from_cudf_shards.
  unfold dask_compute. rewrite Hm, Hr. by destruct df.
Qed.

(** A query on a table that has column [y] in second place. *)
Lemma query_xy op cols rs :
  column_position "y" cols = Some 1%nat →
  query (the_query op) (Frame cols rs)
  = Ok (Frame cols (filter (λ r, row_satisfies 1 (the_query op) r) rs)).
Proof. intros Hp. unfold query. simpl. by rewrite Hp. Qed.

Lemma dask_query_xy op d :
  column_position "y" (meta d) = Some 1%nat → same_schema d →
  dask_query (the_query op) d
  = Ok (Dask (meta d)
          ((λ p, Frame (meta d)
                   (filter (λ r, row_satisfies 1 (the_query op) r) (rows p)))
             <$> partitions d)).
Proof.
  intros Hp Hs. unfold dask_query. rewrite query_xy by done. simpl.
  rewrite (traverse_ok _
    (λ p, Frame (meta d)
            (filter (λ r, row_satisfies 1 (the_query op) r) (rows p)))); [done |].
  eapply Forall_impl; [exact Hs |]. intros [cols rs] Hc. simpl in Hc. subst cols.
  by apply query_xy.
Qed.

Lemma dask_query_rows op d sub :
  column_position "y" (meta d) = Some 1%nat → same_schema d →
  dask_query (the_query op) d = Ok sub →
  meta sub = meta d
  ∧ length (partitions sub) = length (partitions d)
  ∧ same_schema sub
  ∧ rows (dask_compute sub)
    = filter (λ r, row_satisfies 1 (the_query op) r) (rows (dask_compute d)).
Proof.
  intros Hp Hs. rewrite dask_query_xy by done. intros [= <-]. simpl.
  repeat split.
  - by rewrite length_fmap.
  - unfold same_schema. simpl. by apply Forall_fmap, Forall_true.
  - rewrite filter_concat, <- !list_fmap_compose. done.
Qed.

(** *** The split into train and test *)

Lemma row_satisfies_xy op x y l :
  row_satisfies 1 (the_query op) (Row l [CInt x; CFloat y])
  = compare_holds op y half.
Proof. reflexivity. Qed.

(** The rows of the two subsets, for a table made by In [4]. *)
Lemma split_rows xs ys cdf ddf op :
  cudf_DataFrame ("x", IntColumn xs) ("y", FloatColumn ys) = Ok cdf →
  from_cudf cdf npartitions = Ok ddf →
  ∃ sub, dask_query (the_query op) ddf = Ok sub
    ∧ meta sub = columns cdf
    ∧ length (partitions sub) = 8%nat
    ∧ same_schema sub
    ∧ rows (dask_compute sub)
      = filter (λ r, row_satisfies 1 (the_query op) r) (rows cdf).
Proof.
  intros Hcdf Hddf.
  pose proof (from_cudf_compute _ _ _ Hddf) as Hc.
  apply from_cudf_shards in Hddf as (Hm & Hlen & Hs & _).
  apply cudf_DataFrame_xy in Hcdf as [_ Hcols].
  assert (column_position "y" (meta ddf) = Some 1%nat) as Hp
    by (rewrite Hm, Hcols; reflexivity).
  destruct (dask_query (the_query op) ddf) as [sub|e] eqn:Hq;
    [| by rewrite dask_query_xy in Hq].
  exists sub. split; [done |].
  apply dask_query_rows in Hq as (Hm' & Hlen' & Hs' & Hr); [| done..].
  rewrite Hc in Hr. rewrite Hm', Hm, Hlen', Hlen. done.
Qed.

(** C1: the split is a row filter by the threshold 0.5 on column [y]: a
    row of the generated table is in the train subset exactly when its
    [y] value is strictly below 0.5, in the test subset exactly when it is
    strictly above 0.5, and never in both. *)
Theorem split_by_threshold xs ys cdf ddf :
  cudf_DataFrame ("x", IntColumn xs) ("y", FloatColumn ys) = Ok cdf →
  from_cudf cdf npartitions = Ok ddf →
  ∃ train test,
    dask_query (the_query OpLt) ddf = Ok train
    ∧ dask_query (the_query OpGt) ddf = Ok test
    ∧ ∀ r, r ∈ rows cdf →
        ∃ x y, cells r = [CInt x; CFloat y]
          ∧ (r ∈ rows (dask_compute train) ↔ SFltb y half = true)
          ∧ (r ∈ rows (dask_compute test) ↔ SFltb half y = true)
          ∧ ¬ (r ∈ rows (dask_compute train) ∧ r ∈ rows (dask_compute test)).
Proof.
  intros Hcdf Hddf.
  destruct (split_rows _ _ _ _ OpLt Hcdf Hddf) as (train & Ht & _ & _ & _ & Htr).
  destruct (split_rows _ _ _ _ OpGt Hcdf Hddf) as (test & Hs & _ & _ & _ & Hsr).
  exists train, test. split; [done |]. split; [done |].
  intros r Hr. pose proof Hr as Hr'.
  apply (cudf_DataFrame_rows _ _ _ _ Hcdf) in Hr' as (i & x & y & _ & _ & ->).
  exists x, y. split; [done |].
  rewrite Htr, Hsr, !list_elem_of_filter, !row_satisfies_xy. simpl.
  rewrite !Is_true_true.
  split; [tauto |]. split; [tauto |].
  intros [[Hlt _] [Hgt _]]. apply SFltb_asym in Hlt. congruence.
Qed.

Lemma split_by_threshold_witness :
  let ys := [S754_zero false; half; S754_finite false 4503599627370496 (-52)] in
  ∃ cdf ddf,
    cudf_DataFrame ("x", IntColumn [3; 5; 1]) ("y", FloatColumn ys) = Ok cdf
    ∧ from_cudf cdf npartitions = Ok ddf
    ∧ ∃ train test,
        dask_query (the_query OpLt) ddf = Ok train
        ∧ dask_query (the_query OpGt) ddf = Ok test
        ∧ ∀ r, r ∈ rows cdf →
            ∃ x y, cells r = [CInt x; CFloat y]
              ∧ (r ∈ rows (dask_compute train) ↔ SFltb y half = true)
              ∧ (r ∈ rows (dask_compute test) ↔ SFltb half y = true)
              ∧ ¬ (r ∈ rows (dask_compute train)
                   ∧ r ∈ rows (dask_compute test)).
Proof.
  intros ys. eexists _, _. split; [reflexivity |]. split; [reflexivity |].
  apply (split_by_threshold [3; 5; 1] ys); reflexivity.
Defined.

(** A table of [n] rows whose [y] values are all 0.5, sharded and
    split. *)
Lemma table_with_half_row (n : nat) :
  (0 < n)%nat →
  ∃ xs ys cdf ddf train test r,
    length xs = n ∧ length ys = n
    ∧ cudf_DataFrame ("x", IntColumn xs) ("y", FloatColumn ys) = Ok cdf
    ∧ from_cudf cdf npartitions = Ok ddf
    ∧ dask_query (the_query OpLt) ddf = Ok train
    ∧ dask_query (the_query OpGt) ddf = Ok test
    ∧ r ∈ rows cdf ∧ cells r = [CInt 0; CFloat half].
Proof.
  intros Hn.
  set (xs := replicate n 0). set (ys := replicate n half).
  assert (length xs = n ∧ length ys = n) as [Hxs Hys]
    by (unfold xs, ys; by rewrite !length_replicate).
  destruct (cudf_DataFrame ("x", IntColumn xs) ("y", FloatColumn ys))
    as [cdf|] eqn:Hcdf.
  2:{ unfold cudf_DataFrame in Hcdf. simpl in Hcdf.
      rewrite !length_fmap, Hxs, Hys in Hcdf. by case_decide. }
  destruct (from_cudf cdf npartitions) as [ddf|] eqn:Hddf; [| done].
  destruct (split_rows _ _ _ _ OpLt Hcdf Hddf) as (train & Ht & _).
  destruct (split_rows _ _ _ _ OpGt Hcdf Hddf) as (test & Hs & _).
  exists xs, ys, cdf, ddf, train, test, (Row 0 [CInt 0; CFloat half]).
  repeat (split; [done |]). split; [| done].
  apply (cudf_DataFrame_rows _ _ _ _ Hcdf). exists 0%nat, 0, half.
  unfold xs, ys. by rewrite !lookup_replicate_2.
Qed.

(** C10: a row whose [y] value is exactly 0.5 is in neither subset, and
    the two subsets hold rows of the table only: with such a row present,
    their union is a proper subset of the table.  Tables of the
    notebook's size with such a row exist. *)
Theorem split_not_exhaustive :
  (∀ xs ys cdf ddf train test r x y,
     cudf_DataFrame ("x", IntColumn xs) ("y", FloatColumn ys) = Ok cdf →
     from_cudf cdf npartitions = Ok ddf →
     dask_query (the_query OpLt) ddf = Ok train →
     dask_query (the_query OpGt) ddf = Ok test →
     r ∈ rows cdf → cells r = [CInt x; CFloat y] → SFeqb y half = true →
     (r ∉ rows (dask_compute train)) ∧ (r ∉ rows (dask_compute test))
     ∧ ∀ r', r' ∈ rows (dask_compute train) ∨ r' ∈ rows (dask_compute test) →
             r' ∈ rows cdf)
  ∧ ∃ xs ys cdf ddf train test r,
      length xs = Z.to_nat size ∧ length ys = Z.to_nat size
      ∧ cudf_DataFrame ("x", IntColumn xs) ("y", FloatColumn ys) = Ok cdf
      ∧ from_cudf cdf npartitions = Ok ddf
      ∧ dask_query (the_query OpLt) ddf = Ok train
      ∧ dask_query (the_query OpGt) ddf = Ok test
      ∧ r ∈ rows cdf
      ∧ (r ∉ rows (dask_compute train)) ∧ (r ∉ rows (dask_compute test)).
Proof.
  assert (Hall : ∀ xs ys cdf ddf train test r x y,
     cudf_DataFrame ("x", IntColumn xs) ("y", FloatColumn ys) = Ok cdf →
     from_cudf cdf npartitions = Ok ddf →
     dask_query (the_query OpLt) ddf = Ok train →
     dask_query (the_query OpGt) ddf = Ok test →
     r ∈ rows cdf → cells r = [CInt x; CFloat y] → SFeqb y half = true →
     (r ∉ rows (dask_compute train)) ∧ (r ∉ rows (dask_compute test))
     ∧ ∀ r', r' ∈ rows (dask_compute train) ∨ r' ∈ rows (dask_compute test) →
             r' ∈ rows cdf).
  { intros xs ys cdf ddf train test r x y Hcdf Hddf Ht Hs Hr Hcells Hy.
    destruct (split_rows _ _ _ _ OpLt Hcdf Hddf) as (? & Ht' & _ & _ & _ & Htr).
    destruct (split_rows _ _ _ _ OpGt Hcdf Hddf) as (? & Hs' & _ & _ & _ & Hsr).
    rewrite Ht in Ht'. rewrite Hs in Hs'. simplify_eq.
    rewrite Htr, Hsr. setoid_rewrite list_elem_of_filter.
    destruct r as [l c]. simpl in Hcells. subst c.
    rewrite !row_satisfies_xy. simpl.
    apply SFeqb_not_ltb in Hy as [-> ->]. simpl. tauto. }
  split; [exact Hall |].
  destruct (table_with_half_row (Z.to_nat size)) as
    (xs & ys & cdf & ddf & train & test & r
     & Hxs & Hys & Hcdf & Hddf & Ht & Hs & Hr & Hcells).
  { apply Nat2Z.inj_lt. rewrite Z2Nat.id; [reflexivity | discriminate]. }
  exists xs, ys, cdf, ddf, train, test, r.
  repeat (split; [assumption |]).
  destruct (Hall xs ys cdf ddf train test r 0 half) as (? & ? & _);
    try assumption; done.
Qed.

Lemma split_not_exhaustive_witness :
  let xs := [3; 5; 1] in
  let ys := [S754_zero false; half; S754_finite false 4503599627370496 (-52)] in
  let r := Row 1 [CInt 5; CFloat half] in
  ∃ cdf train test,
    cudf_DataFrame ("x", IntColumn xs) ("y", FloatColumn ys) = Ok cdf
    ∧ r ∈ rows cdf
    ∧ (r ∉ rows (dask_compute train)) ∧ (r ∉ rows (dask_compute test))
    ∧ ∀ r', r' ∈ rows (dask_compute train) ∨ r' ∈ rows (dask_compute test) →
            r' ∈ rows cdf.
Proof.
  intros xs ys r. eexists _, _, _. split; [reflexivity |].
  assert (r ∈ [Row 0 [CInt 3; CFloat (S754_zero false)]; r;
               Row 2 [CInt 1; CFloat (S754_finite false 4503599627370496 (-52))]])
    as Hr by (apply list_elem_of_further, list_elem_of_here).
  split; [exact Hr |].
  eapply (proj1 split_not_exhaustive xs ys _ _ _ _ r 5 half);
    [reflexivity | reflexivity | reflexivity | reflexivity
    | exact Hr | reflexivity | reflexivity].
Defined.

(** *** Shards *)

Lemma row_disjoint_compute d :
  row_disjoint d ↔ NoDup (label <$> rows (dask_compute d)).
Proof. reflexivity. Qed.

Lemma dask_compute_query op cdf sub :
  column_position "y" (columns cdf) = Some 1%nat →
  meta sub = columns cdf →
  rows (dask_compute sub)
  = filter (λ r, row_satisfies 1 (the_query op) r) (rows cdf) →
  query (the_query op) cdf = Ok (dask_compute sub).
Proof.
  intros Hp Hm Hr. destruct cdf as [cols rs]. simpl in *.
  rewrite query_xy by done. unfold dask_compute in *. simpl in *.
  by rewrite Hm, Hr.
Qed.

Lemma from_cudf_total df : ∃ ddf, from_cudf df npartitions = Ok ddf.
Proof. unfold from_cudf. rewrite decide_True by done. by eexists. Qed.

(** C5: the synthetic table has the two numeric columns [x] and [y] and
    is held in exactly 8 row-disjoint shards; the shards of the generated
    table put together are the table, and the shards of each filtered
    subset put together are the rows the filter keeps of the table, with
    the schema of the table. *)
Theorem partitions_reconstruct xs ys cdf :
  cudf_DataFrame ("x", IntColumn xs) ("y", FloatColumn ys) = Ok cdf →
  columns cdf = [("x", int64); ("y", float64)]
  ∧ ∃ ddf,
      from_cudf cdf npartitions = Ok ddf
      ∧ length (partitions ddf) = 8%nat
      ∧ row_disjoint ddf
      ∧ same_schema ddf
      ∧ dask_compute ddf = cdf
      ∧ ∀ op, ∃ sub,
          dask_query (the_query op) ddf = Ok sub
          ∧ length (partitions sub) = 8%nat
          ∧ row_disjoint sub
          ∧ same_schema sub
          ∧ meta sub = columns cdf
          ∧ query (the_query op) cdf = Ok (dask_compute sub).
Proof.
  intros Hcdf.
  pose proof (cudf_DataFrame_xy _ _ _ Hcdf) as [_ Hcols].
  assert (columns cdf = [("x", int64); ("y", float64)]) as Hc by (by subst cdf).
  split; [done |].
  destruct (from_cudf_total cdf) as [ddf Hddf].
  exists ddf. split; [done |].
  pose proof (from_cudf_compute _ _ _ Hddf) as Hcomp.
  pose proof (from_cudf_shards _ _ _ Hddf) as (Hm & Hlen & Hs & Hrows).
  pose proof (cudf_DataFrame_labels _ _ _ Hcdf) as Hnd.
  repeat split; try done.
  - unfold row_disjoint. by rewrite Hrows.
  - intros op.
    destruct (split_rows _ _ _ _ op Hcdf Hddf) as (sub & Hq & Hm' & Hl' & Hs' & Hr').
    exists sub. repeat split; try done.
    + apply row_disjoint_compute. rewrite Hr'.
      eapply sublist_NoDup; [exact Hnd |].
      apply fmap_sublist, sublist_filter.
    + apply dask_compute_query; [by rewrite Hc | done | done].
Qed.

Lemma partitions_reconstruct_witness :
  let ys := [S754_zero false; half; S754_finite false 4503599627370496 (-52)] in
  ∃ cdf,
    cudf_DataFrame ("x", IntColumn [3; 5; 1]) ("y", FloatColumn ys) = Ok cdf
    ∧ columns cdf = [("x", int64); ("y", float64)]
    ∧ ∃ ddf,
        from_cudf cdf npartitions = Ok ddf
        ∧ length (partitions ddf) = 8%nat
        ∧ row_disjoint ddf
        ∧ same_schema ddf
        ∧ dask_compute ddf = cdf
        ∧ ∀ op, ∃ sub,
            dask_query (the_query op) ddf = Ok sub
            ∧ length (partitions sub) = 8%nat
            ∧ row_disjoint sub
            ∧ same_schema sub
            ∧ meta sub = columns cdf
            ∧ query (the_query op) cdf = Ok (dask_compute sub).
Proof.
  intros ys. eexists. split; [reflexivity |].
  apply (partitions_reconstruct [3; 5; 1] ys). reflexivity.
Defined.

(** *** The metric *)

Lemma sum_R_app (a b : list R) : sum_R (a ++ b) = (sum_R a + sum_R b)%R.
Proof.
  induction a as [|x a IH]; simpl; [lra |]. unfold sum_R in *. simpl. rewrite IH. lra.
Qed.

Lemma sum_R_concat (ls : list (list R)) : sum_R (sum_R <$> ls) = sum_R (concat ls).
Proof.
  induction ls as [|l ls IH]; simpl; [done |].
  rewrite sum_R_app, <- IH. done.
Qed.

Lemma sum_nat_concat {A} (ls : list (list A)) :
  sum_nat (length <$> ls) = length (concat ls).
Proof.
  induction ls as [|l ls IH]; simpl; [done |].
  rewrite length_app, <- IH. done.
Qed.

Lemma sum_R_nonneg (l : list R) : Forall (λ v, 0 <= v)%R l → (0 <= sum_R l)%R.
Proof.
  induction 1 as [|x l Hx _ IH]; simpl; [lra |]. unfold sum_R in *. simpl. lra.
Qed.

Lemma squared_differences_nonneg (p t : list R) :
  Forall (λ v, 0 <= v)%R (squared_differences p t).
Proof.
  unfold squared_differences. revert t.
  induction p as [|x p IH]; intros [|y t]; simpl; try constructor; [| apply IH].
  apply pow2_ge_0.
Qed.

Lemma arithmetic_mean_divide (l : list R) :
  arithmetic_mean l = divide (sum_R l) (length l).
Proof. unfold divide. by destruct l. Qed.

(** The square root is taken of a mean of squares, which is never below
    zero. *)
Lemma cupy_sqrt_mean (l : list R) :
  Forall (λ v, 0 <= v)%R l →
  cupy_sqrt (divide (sum_R l) (length l)) = sqrt <$> arithmetic_mean l.
Proof.
  intros Hl. rewrite arithmetic_mean_divide. unfold divide.
  case_decide as Hn; [done |]. simpl.
  destruct (Rlt_dec _ _) as [Hlt|]; [| done]. exfalso.
  apply sum_R_nonneg in Hl.
  assert (0 < INR (length l))%R by (apply lt_0_INR; lia).
  apply (Rlt_not_le _ _ Hlt). unfold Rdiv. by apply Rle_mult_inv_pos.
Qed.

(** Index labels after [reset_index] and of [cudf.Series(part)]. *)
Lemma reset_index_labels (s : Series) :
  (reset_index s).*1 = Z.of_nat <$> seq 0 (length s).
Proof.
  unfold reset_index. rewrite fmap_imap.
  rewrite (imap_ext _ (λ i _, Z.of_nat i)) by done. apply imap_seq_0.
Qed.

Lemma reset_index_values (s : Series) : (reset_index s).*2 = s.*2.
Proof.
  unfold reset_index. rewrite fmap_imap.
  rewrite (imap_ext _ (λ _ e, e.2)) by done.
  apply imap_const.
Qed.

Lemma length_reset_index (s : Series) : length (reset_index s) = length s.
Proof. apply length_imap. Qed.

Lemma series_of_array_labels (a : list R) :
  (series_of_array a).*1 = Z.of_nat <$> seq 0 (length a).
Proof.
  unfold series_of_array. rewrite fmap_imap.
  rewrite (imap_ext _ (λ i _, Z.of_nat i)) by done. apply imap_seq_0.
Qed.

Lemma series_of_array_values (a : list R) : (series_of_array a).*2 = Some <$> a.
Proof.
  unfold series_of_array. rewrite fmap_imap.
  rewrite (imap_ext _ (λ _ v, Some v)) by done.
  apply imap_const.
Qed.

Lemma length_series_of_array (a : list R) : length (series_of_array a) = length a.
Proof. apply length_imap. Qed.

Lemma labelled_values (l : list (Z * R)) : (labelled l).*2 = Some <$> l.*2.
Proof. unfold labelled. by rewrite <- !list_fmap_compose. Qed.

Lemma length_labelled (l : list (Z * R)) : length (labelled l) = length l.
Proof. apply length_fmap. Qed.

(** The values present in the square of a difference taken position by
    position, when no value is missing on either side. *)
Lemma valid_squares (d : Series) (p t : list R) :
  d.*2 = zip_with (λ x y, lift2 Rminus (Some x) (Some y)) p t →
  valid (series_pow d 2) = squared_differences p t.
Proof.
  unfold valid, series_pow, squared_differences. revert p t.
  induction d as [|[l v] d IH]; intros [|x p] [|y t] Hd; simplify_eq/=; try done.
  by rewrite (IH p t).
Qed.

Lemma zip_with_values (f : R → R → R) (a b : Series) (p t : list R) :
  a.*2 = Some <$> p → b.*2 = Some <$> t →
  (zip_with (λ x y : Z * option R, (x.1, lift2 f x.2 y.2)) a b).*2
  = zip_with (λ x y, lift2 f (Some x) (Some y)) p t.
Proof.
  revert b p t. induction a as [|[i u] a IH]; intros [|[j v] b] [|x p] [|y t] Ha Hb;
    simplify_eq/=; try done.
  by rewrite (IH b p t).
Qed.

(** One partition of Method 1. *)
Lemma method1_partition (p : list R) (l : list (Z * R)) :
  length p = length l →
  valid (series_pow
           (series_sub (reset_index (series_of_array p))
                       (reset_index (labelled l))) 2)
  = squared_differences p l.*2.
Proof.
  intros Hlen. apply valid_squares.
  unfold series_sub, series_binop.
  rewrite decide_True.
  2:{ rewrite !reset_index_labels, length_series_of_array, length_labelled.
      by rewrite Hlen. }
  apply zip_with_values.
  - by rewrite reset_index_values, series_of_array_values.
  - by rewrite reset_index_values, labelled_values.
Qed.

Lemma squared_differences_concat (ps : list (list R)) (ls : list (list (Z * R))) :
  Forall2 (λ p l, length p = length l) ps ls →
  concat (zip_with squared_differences ps ((λ l, l.*2) <$> ls))
  = squared_differences (concat ps) (concat ls).*2.
Proof.
  induction 1 as [|p l ps ls Hlen _ IH]; csimpl; [done |].
  rewrite IH, fmap_app. unfold squared_differences.
  rewrite zip_with_app; [done |]. by rewrite length_fmap.
Qed.

Lemma method1_partitions (ps : list (list R)) (ls : list (list (Z * R))) :
  Forall2 (λ p l, length p = length l) ps ls →
  valid <$> dask_pow
              (zip_with (series_binop Rminus)
                 (dask_reset_index (series_of_array <$> ps))
                 (dask_reset_index (labelled <$> ls))) 2
  = zip_with squared_differences ps ((λ l, l.*2) <$> ls).
Proof.
  unfold dask_pow, dask_reset_index.
  induction 1 as [|p l ps ls Hlen _ IH]; csimpl; [done |].
  rewrite <- IH. f_equal. by apply method1_partition.
Qed.

Lemma dask_mean_valid (ds : DaskSeries) :
  dask_mean ds
  = divide (sum_R (concat (valid <$> ds))) (length (concat (valid <$> ds))).
Proof.
  unfold dask_mean, series_sum, series_count.
  rewrite <- sum_R_concat, <- sum_nat_concat, <- !list_fmap_compose. done.
Qed.

Lemma array_sub_values (p : list R) (s : Series) (t : list R) :
  s.*2 = Some <$> t →
  (zip_with (λ x (e : Z * option R), (e.1, (λ v, x - v)%R <$> e.2)) p s).*2
  = zip_with (λ x y, lift2 Rminus (Some x) (Some y)) p t.
Proof.
  revert s t. induction p as [|x p IH]; intros [|[j v] s] [|y t] Hs;
    simplify_eq/=; try done.
  by rewrite (IH s t).
Qed.

Lemma computed_labels_values (ls : list (list (Z * R))) :
  (dask_series_compute (dask_reset_index (labelled <$> ls))).*2
  = Some <$> (concat ls).*2.
Proof.
  unfold dask_series_compute, dask_reset_index.
  induction ls as [|l ls IH]; csimpl; [done |].
  rewrite !fmap_app, IH, reset_index_values, labelled_values. done.
Qed.

Lemma rmse_method1_reference (pred : list (list R)) (labels : list (list (Z * R))) :
  Forall2 (λ p l, length p = length l) pred labels →
  rmse_method1 pred (labelled <$> labels)
  = Ok (rmse_reference (concat pred) (concat labels).*2).
Proof.
  intros Hlen. unfold rmse_method1, dask_sub, dask_binop.
  rewrite decide_True.
  2:{ unfold dask_reset_index. rewrite !length_fmap.
      by eapply Forall2_length. }
  simpl. f_equal.
  rewrite dask_mean_valid, method1_partitions, squared_differences_concat by done.
  apply cupy_sqrt_mean, squared_differences_nonneg.
Qed.

Lemma rmse_method2_reference (pred : list R) (labels : list (list (Z * R))) :
  length pred = length (concat labels) →
  rmse_method2 pred (labelled <$> labels)
  = Ok (rmse_reference pred (concat labels).*2).
Proof.
  intros Hlen. unfold rmse_method2, array_sub_series.
  pose proof (computed_labels_values labels) as Hv.
  rewrite decide_True.
  2:{ rewrite <- (length_fmap snd), Hv, !length_fmap. done. }
  simpl. f_equal. unfold series_mean, series_sum, series_count.
  erewrite valid_squares; [| by apply array_sub_values].
  apply cupy_sqrt_mean, squared_differences_nonneg.
Qed.



(** *** What one statement does to the kernel *)

(** Unfold one statement down to the primitives of the monad, and take
    every case of what it reads and of what the library returns. *)
Ltac run_stmt :=
  unfold exec, booster_object, name_as, lookup_name, lift, assign, getenv,
    putenv, load, store, alloc, print, external;
  unfold mbind, M_bind, mret, M_ret; simpl.

Ltac all_cases := repeat case_match; simplify_eq/=.

Section Effects.
Context `{External}.

Lemma exec_env k :
  exec S_env k
  = (Ok (), Kernel (<["NCCL_P2P_DISABLE" := "1"]> (environ k))
              (globals k) (heap k) (calls k) (stdout k)).
Proof. reflexivity. Qed.

(** Only [%env] touches the process environment. *)
Lemma exec_environ s k : s ≠ S_env → environ (exec s k).2 = environ k.
Proof.
  intros Hs. destruct s; try done; clear Hs; run_stmt; all_cases; done.
Qed.

(** A statement binds its targets and no other name. *)
Lemma exec_globals s k v :
  v ∉ targets s → globals (exec s k).2 !! v = globals k !! v.
Proof.
  intros Hv. destruct s; simpl in Hv; run_stmt; all_cases; try done.
  all: rewrite ?lookup_insert_ne
         by (intros <-; apply Hv;
             repeat first [apply list_elem_of_here | apply list_elem_of_further]);
       done.
Qed.

(** Only training (which allocates) and [set_param] touch the heap. *)
Lemma exec_heap s k :
  s ≠ S_train → s ≠ S_set_param → heap (exec s k).2 = heap k.
Proof.
  intros H1 H2. destruct s; try done; clear H1 H2; run_stmt; all_cases; done.
Qed.

Lemma alloc_keeps (hp : gmap positive hobj) (o o' : hobj) l :
  hp !! l = Some o → <[fresh (dom hp) := o']> hp !! l = Some o.
Proof.
  intros Hl. rewrite lookup_insert_ne; [done |].
  intros <-. apply (is_fresh (dom hp)). apply elem_of_dom. by eexists.
Qed.

(** No statement changes an evaluation history that exists. *)
Lemma exec_history s k l h :
  heap k !! l = Some (HHistory h) → heap (exec s k).2 !! l = Some (HHistory h).
Proof.
  intros Hl.
  destruct (decide (s = S_train)) as [->|Ht].
  { run_stmt; all_cases; try done. by do 2 apply alloc_keeps. }
  destruct (decide (s = S_set_param)) as [->|Hs].
  { run_stmt; all_cases; try done.
    rewrite lookup_insert_ne; [done |]. intros <-.
    match goal with Hld : from_option _ _ (heap _ !! _) = _ |- _ =>
      rewrite Hl in Hld end.
    by simplify_eq/=. }
  by rewrite exec_heap.
Qed.

(** No statement other than [set_param] changes a booster that exists. *)
Lemma exec_booster s k l b :
  s ≠ S_set_param →
  heap k !! l = Some (HBooster b) → heap (exec s k).2 !! l = Some (HBooster b).
Proof.
  intros Hs Hl.
  destruct (decide (s = S_train)) as [->|Ht].
  { run_stmt; all_cases; try done. by do 2 apply alloc_keeps. }
  by rewrite exec_heap.
Qed.

(** What a statement adds to the log ran in the environment the statement
    started in; and when a call raised, it is the last one and the
    statement ends with what it raised. *)
Lemma exec_calls s k :
  ∃ new, calls (exec s k).2 = calls k ++ new
    ∧ Forall (λ en, env_at en = environ k) new
    ∧ match (exec s k).1 with
      | Ok _ => returned new
      | Raise e =>
          returned new
          ∨ ∃ pre c, new = pre ++ [Entry c (environ k) (Some e)] ∧ returned pre
      end.
Proof.
  unfold returned. destruct s; run_stmt; all_cases.
  all: rewrite <- ?app_assoc; simpl.
  all: try (exists []; rewrite app_nil_r; split; [reflexivity |];
            split; [constructor |]; first [by constructor | left; by constructor]).
  all: eexists; split; [reflexivity |]; split; [by repeat constructor |].
  all: first [ by repeat constructor
             | right; by eexists [], _
             | right; eexists [_], _; split; [reflexivity | by repeat constructor] ].
Qed.

End Effects.

(** *** The run of the notebook *)

Section Run.
Context `{External}.

Lemma run_app p q k :
  run (p ++ q) k
  = match run p k with
    | (Ok _, k') => run q k'
    | (Raise e, k') => (Raise e, k')
    end.
Proof.
  revert k. induction p as [|s p IH]; intros k; simpl; [done |].
  destruct (exec s k) as [[[]|e] k1]; [apply IH | done].
Qed.

Lemma run_app_ok p q k :
  (run p k).1 = Ok () → run (p ++ q) k = run q (run p k).2.
Proof.
  rewrite run_app. by destruct (run p k) as [[[]|e] k1].
Qed.

Lemma run_app_ok_inv p q k :
  (run (p ++ q) k).1 = Ok () →
  (run p k).1 = Ok () ∧ (run q (run p k).2).1 = Ok ().
Proof.
  rewrite run_app. by destruct (run p k) as [[[]|e] k1].
Qed.

Lemma run_invariant (I : kernel → Prop) :
  (∀ s k, I k → I (exec s k).2) → ∀ prog k, I k → I (run prog k).2.
Proof.
  intros Hstep prog. induction prog as [|s prog IH]; intros k Hk; simpl; [done |].
  specialize (Hstep s k Hk). destruct (exec s k) as [[[]|e] k1]; simpl in *; auto.
Qed.

Lemma run_keeps_calls prog k en : en ∈ calls k → en ∈ calls (run prog k).2.
Proof.
  apply (run_invariant (λ k, en ∈ calls k)). intros s k0 Hen.
  destruct (exec_calls s k0) as (new & -> & _). apply elem_of_app. by left.
Qed.

(** A longer prefix of a program continues the run of a shorter one, or
    the shorter one has already failed. *)
Lemma run_take_le prog (n m : nat) k :
  (n ≤ m)%nat →
  ∃ rest, (rest = [] ∨ rest = drop n (take m prog))
    ∧ (run (take m prog) k).2 = (run rest (run (take n prog) k).2).2.
Proof.
  intros Hnm.
  assert (take m prog = take n prog ++ drop n (take m prog)) as Heq.
  { rewrite <- (take_drop n (take m prog)) at 1.
    by rewrite take_take, Nat.min_l. }
  remember (drop n (take m prog)) as rest eqn:Hrest.
  rewrite Heq, run_app.
  destruct (run (take n prog) k) as [[[]|e] k1]; simpl.
  - exists rest. by split; [right |].
  - exists []. by split; [left |].
Qed.

(** In a run that starts with a log of calls that returned, a call that
    raised is the last of the log, and what it raised is the result of
    the run. *)
Lemma run_calls prog k :
  returned (calls k) →
  match (run prog k).1 with
  | Ok _ => returned (calls (run prog k).2)
  | Raise e =>
      returned (calls (run prog k).2)
      ∨ ∃ pre c env, calls (run prog k).2 = pre ++ [Entry c env (Some e)]
                     ∧ returned pre
  end.
Proof.
  revert k. induction prog as [|s prog IH]; intros k Hk; simpl; [done |].
  destruct (exec_calls s k) as (new & Hcalls & _ & Hnew).
  destruct (exec s k) as [[[]|e] k1]; simpl in *.
  - apply IH. rewrite Hcalls. by apply Forall_app.
  - rewrite Hcalls. destruct Hnew as [Hnew|(pre & c & -> & Hpre)].
    + left. by apply Forall_app.
    + right. exists (calls k ++ pre), c, (environ k).
      split; [by rewrite app_assoc | by apply Forall_app].
Qed.



Lemma exec_p2p_disabled s k : p2p_disabled k → p2p_disabled (exec s k).2.
Proof.
  intros [Henv Hcalls]. destruct (decide (s = S_env)) as [->|Hs].
  - rewrite exec_env. split; simpl; [apply lookup_insert_eq | done].
  - destruct (exec_calls s k) as (new & Hnew & Hat & _).
    split; [by rewrite exec_environ |].
    intros en. rewrite Hnew. intros [?|Hen]%elem_of_app; [by apply Hcalls |].
    rewrite Forall_forall in Hat. by rewrite (Hat en Hen).
Qed.

(** C4: in every prefix of the run of the notebook, from a kernel started
    in any environment, the cluster constructor and the client
    constructor have only run in an environment where NCCL_P2P_DISABLE is
    "1"; the variable is "1" from the first statement on; and when the
    first statement has run no external call has been made yet. *)
Theorem p2p_disabled_before_runtime (env : gmap string string) (n : nat) :
  let k := (run (take n notebook) (boot env)).2 in
  (∀ en, en ∈ calls k → starts_runtime (callee en) = true →
         env_at en !! "NCCL_P2P_DISABLE" = Some "1")
  ∧ ((0 < n)%nat → environ k !! "NCCL_P2P_DISABLE" = Some "1")
  ∧ ((n ≤ 1)%nat → calls k = []).
Proof.
  destruct n as [|n]; simpl.
  { split; [by intros en ?%elem_of_nil | split; [lia | done]]. }
  assert (p2p_disabled (exec S_env (boot env)).2) as Hinit.
  { rewrite exec_env. split; simpl; [apply lookup_insert_eq |].
    by intros en ?%elem_of_nil. }
  pose proof (run_invariant p2p_disabled exec_p2p_disabled
                (take n (tail notebook)) _ Hinit) as [Henv Hcalls].
  change (take n _) with (take n (tail notebook)).
  split; [by intros en Hen _; apply Hcalls |]. split; [done |].
  intros Hn. assert (n = 0%nat) as -> by lia. done.
Qed.

End Run.

(** *** The model and the evaluation history after training *)

Section Frame.
Context `{External}.

(** What [booster.set_param] does when it returns: the object behind the
    name [booster] is replaced by what the library's [set_param] makes of
    it; nothing else in the heap changes. *)
Lemma exec_set_param k k' :
  exec S_set_param k = (Ok (), k') →
  ∃ l b b',
    globals k !! "booster" = Some (VRef l)
    ∧ heap k !! l = Some (HBooster b)
    ∧ Booster_set_param b [("predictor", "gpu_predictor")] = Ok b'
    ∧ heap k' = <[l := HBooster b']> (heap k).
Proof.
  run_stmt. all_cases; try done. intros [= <-]. simpl.
  repeat match goal with
         | Hx : from_option _ _ ?o = Ok _ |- _ =>
             destruct o eqn:?; simplify_eq/=
         end.
  unfold as_ref, as_booster in *. all_cases. eauto 10.
Qed.

Lemma set_param_position (j : nat) :
  notebook !! j = Some S_set_param → j = 26%nat.
Proof.
  intros Hj.
  do 41 (destruct j as [|j]; [by vm_compute in Hj |]).
  by vm_compute in Hj.
Qed.

Lemma run_history prog k l h :
  heap k !! l = Some (HHistory h) → heap (run prog k).2 !! l = Some (HHistory h).
Proof.
  apply (run_invariant (λ k, heap k !! l = Some (HHistory h))).
  intros s k0. apply exec_history.
Qed.

Lemma run_booster prog k l b :
  S_set_param ∉ prog →
  heap k !! l = Some (HBooster b) → heap (run prog k).2 !! l = Some (HBooster b).
Proof.
  revert k. induction prog as [|s prog IH]; intros k Hnot Hl; simpl; [done |].
  apply not_elem_of_cons in Hnot as [Hs Hnot].
  pose proof (exec_booster s k l b ltac:(done) Hl) as Hstep.
  destruct (exec s k) as [[[]|e] k1]; simpl in *; auto.
Qed.


End Frame.

(** *** The two prediction paths *)

Lemma select_columns_at names idx cols rs :
  traverse (λ n, from_option Ok (Raise (KeyError n)) (column_position n cols)) names
  = Ok idx →
  select_columns names (Frame cols rs)
  = Ok (Frame (omap (λ i, cols !! i) idx) (project idx <$> rs)).
Proof. intros Hidx. unfold select_columns. simpl. by rewrite Hidx. Qed.

Lemma dask_select_columns_at names idx d :
  traverse (λ n, from_option Ok (Raise (KeyError n)) (column_position n (meta d)))
    names = Ok idx →
  same_schema d →
  dask_select_columns names d
  = Ok (Dask (omap (λ i, meta d !! i) idx)
          ((λ p, Frame (omap (λ i, meta d !! i) idx) (project idx <$> rows p))
             <$> partitions d)).
Proof.
  intros Hidx Hs. unfold dask_select_columns.
  rewrite (select_columns_at _ _ _ _ Hidx). simpl.
  rewrite (traverse_ok _
    (λ p, Frame (omap (λ i, meta d !! i) idx) (project idx <$> rows p))); [done |].
  eapply Forall_impl; [exact Hs |]. intros [cols rs] Hc. simpl in Hc. subst cols.
  by apply select_columns_at.
Qed.

Lemma target_xy t :
  xy_table t →
  target t
  = Ok (Dask [("x", int64)]
          ((λ p, Frame [("x", int64)] (project [0%nat] <$> rows p))
             <$> partitions t)).
Proof.
  intros (Hm & Hs & _). unfold target.
  rewrite (dask_select_columns_at _ [0%nat]); [by rewrite Hm | by rewrite Hm | done].
Qed.

Lemma features_xy t :
  xy_table t →
  features t
  = Ok (Dask [("y", float64)]
          ((λ p, Frame [("y", float64)] (project [1%nat] <$> rows p))
             <$> partitions t)).
Proof.
  intros (Hm & Hs & _). unfold features.
  rewrite (dask_select_columns_at _ [1%nat]); [by rewrite Hm | by rewrite Hm | done].
Qed.

(** [Y_test['x']] for the labels of an [x], [y] table: the [x] values
    with the index labels of the rows, none missing. *)
Lemma column_x_of_target p :
  Forall (λ r, xy_row r) (rows p) →
  column_series "x" (Frame [("x", int64)] (project [0%nat] <$> rows p))
  = Ok (labelled (label_value <$> rows p)).
Proof.
  intros Hrows. unfold column_series, labelled. simpl. f_equal.
  rewrite <- !list_fmap_compose. apply Forall_fmap_ext_1.
  eapply Forall_impl; [exact Hrows |]. intros [l c] Hr.
  unfold xy_row in Hr. simpl in *.
  destruct c as [|[x|] [|[|y] [|]]]; done.
Qed.

Lemma dask_column_x_of_target t Y :
  xy_table t → target t = Ok Y →
  dask_column_series "x" Y
  = Ok (labelled <$> ((λ p, label_value <$> rows p) <$> partitions t)).
Proof.
  intros Ht. rewrite (target_xy t Ht). intros [= <-].
  destruct Ht as (_ & _ & Hrows).
  unfold dask_column_series. simpl.
  rewrite traverse_fmap.
  rewrite (traverse_ok _ (λ p, labelled (label_value <$> rows p))).
  - by rewrite <- list_fmap_compose.
  - eapply Forall_impl; [exact Hrows |].
    intros p Hp. simpl. by apply column_x_of_target.
Qed.

Section Paths.
Context `{External}.

(** The distributed predictor returns, partition by partition, as many
    predictions as the subset has rows. *)
Lemma predictions_per_partition (b : Booster) t X parts :
  xy_table t → features t = Ok X →
  traverse (mapped_predict b) (partitions X) = Ok parts →
  Forall2 (λ (p : list R) (l : list (Z * R)), length p = length l)
    parts ((λ p, label_value <$> rows p) <$> partitions t).
Proof.
  intros Ht. rewrite (features_xy t Ht). intros [= <-]. simpl.
  intros Hparts%traverse_length.
  apply Forall2_fmap_r. apply Forall2_fmap_l in Hparts.
  eapply Forall2_impl; [apply Forall2_flip, Hparts |].
  intros v p Hv. simpl in *.
  apply mapped_predict_shape in Hv. simpl in Hv.
  by rewrite Hv, !length_fmap.
Qed.

(** When the two prediction calls return the same predictions, both
    metrics are the reference metric of the predictions against the
    labels. *)
Lemma paths_agree (b : Booster) (t X_test Y_test : DaskDataFrame)
    (parts : list (list R)) (pred : list R) :
  xy_table t →
  features t = Ok X_test →
  target t = Ok Y_test →
  traverse (mapped_predict b) (partitions X_test) = Ok parts →
  inplace_predict b (dask_compute X_test) = Ok pred →
  concat parts = pred →
  ∃ rmse, method1 b X_test Y_test = Ok rmse
        ∧ method2 b X_test Y_test = Ok rmse
        ∧ rmse = rmse_reference pred
                   (label_value <$> rows (dask_compute t)).*2.
Proof.
  intros Ht HX HY Hparts Hpred Hsame.
  pose proof (predictions_per_partition b t X_test parts Ht HX Hparts) as Hlen.
  pose proof (dask_column_x_of_target t Y_test Ht HY) as Htrue.
  exists (rmse_reference pred (label_value <$> rows (dask_compute t)).*2).
  assert (concat ((λ p, label_value <$> rows p) <$> partitions t)
          = label_value <$> rows (dask_compute t)) as Hlabels.
  { simpl. generalize (partitions t). intros ps.
    induction ps as [|p ps IH]; csimpl; [done |]. by rewrite fmap_app, IH. }
  unfold method1, method2. rewrite Hparts, Hpred, Htrue. simpl.
  rewrite rmse_method1_reference by done.
  rewrite rmse_method2_reference.
  2:{ rewrite <- Hsame. clear -Hlen.
      induction Hlen as [|p l ps ls Hl _ IH]; simpl; [done |].
      rewrite !length_app. congruence. }
  rewrite Hlabels, Hsame. done.
Qed.

Ltac read_names :=
  repeat first
    [ rewrite lookup_insert_eq
    | rewrite lookup_insert_ne by done
    | match goal with Hn : globals _ !! _ = Some _ |- _ => rewrite Hn end
    | match goal with Hn : heap _ !! _ = Some _ |- _ => rewrite Hn end
    | progress simpl ].

(** The statements of the first metric cell compute [method1], and print
    it. *)
Lemma run_cell_method1 k c lb b X Y r :
  globals k !! "client" = Some (VClient c) →
  globals k !! "booster" = Some (VRef lb) →
  heap k !! lb = Some (HBooster b) →
  globals k !! "X_test" = Some (VDaskFrame X) →
  globals k !! "Y_test" = Some (VDaskFrame Y) →
  method1 b X Y = Ok r →
  (run cell_method1 k).1 = Ok ()
  ∧ stdout (run cell_method1 k).2 = stdout k ++ [[VStr "rmse value:"; VFloat r]].
Proof.
  intros Hc Hb Hlb HX HY Hr. unfold method1 in Hr.
  destruct (traverse _ (partitions X)) as [parts|] eqn:Hparts; [| done].
  destruct (dask_column_series "x" Y) as [t|] eqn:Ht; [| done].
  simpl in Hr.
  unfold cell_method1. cbn [run]. run_stmt.
  read_names. rewrite Hparts. read_names. rewrite Ht. read_names.
  revert Hr. unfold rmse_method1, dask_sub.
  destruct (dask_binop _ _ _) as [d|]; simpl; [| done].
  intros [= <-]. read_names. done.
Qed.

(** The statements of the second metric cell compute [method2], and print
    it. *)
Lemma run_cell_method2 k lb b X Y r :
  globals k !! "booster" = Some (VRef lb) →
  heap k !! lb = Some (HBooster b) →
  globals k !! "X_test" = Some (VDaskFrame X) →
  globals k !! "Y_test" = Some (VDaskFrame Y) →
  method2 b X Y = Ok r →
  (run cell_method2 k).1 = Ok ()
  ∧ stdout (run cell_method2 k).2 = stdout k ++ [[VStr "rmse value:"; VFloat r]].
Proof.
  intros Hb Hlb HX HY Hr. unfold method2 in Hr.
  destruct (inplace_predict _ _) as [pred|] eqn:Hpred; [| done].
  destruct (dask_column_series "x" Y) as [t|] eqn:Ht; [| done].
  simpl in Hr.
  unfold cell_method2. cbn [run]. run_stmt.
  read_names. rewrite Hpred. read_names. rewrite Ht. read_names.
  revert Hr. unfold rmse_method2.
  destruct (array_sub_series _ _) as [d|]; simpl; [| done].
  intros [= <-]. read_names. done.
Qed.

Lemma run_globals prog k v :
  Forall (λ s, v ∉ targets s) prog →
  globals (run prog k).2 !! v = globals k !! v.
Proof.
  intros Hprog. revert k.
  induction Hprog as [|s prog Hs _ IH]; intros k; simpl; [done |].
  pose proof (exec_globals s k v Hs) as Hstep.
  destruct (exec s k) as [[[]|e] k1]; simpl in *; [| done].
  by rewrite IH.
Qed.

Lemma run_heap prog k :
  S_train ∉ prog → S_set_param ∉ prog → heap (run prog k).2 = heap k.
Proof.
  revert k. induction prog as [|s prog IH]; intros k Ht Hp; simpl; [done |].
  apply not_elem_of_cons in Ht as [? ?]. apply not_elem_of_cons in Hp as [? ?].
  pose proof (exec_heap s k ltac:(done) ltac:(done)) as Hstep.
  destruct (exec s k) as [[[]|e] k1]; simpl in *; [| done].
  by rewrite IH.
Qed.


End Paths.


(** *** The training call *)

Section Training.
Context `{External}.

Lemma params_num_rounds : params_dict !! "num_rounds" = Some (VInt 100).
Proof. reflexivity. Qed.

(** Only the training statement logs a training call. *)
Lemma exec_calls_not_train s k :
  s ≠ S_train →
  ∃ new, calls (exec s k).2 = calls k ++ new
    ∧ Forall (λ en, is_train (callee en) = false) new.
Proof.
  intros Hs. destruct s; try done; clear Hs; run_stmt; all_cases.
  all: rewrite <- ?app_assoc; simpl.
  all: try (exists []; rewrite app_nil_r; by split).
  all: eexists; split; [reflexivity |]; by repeat constructor.
Qed.

(** The training statement logs at most one call, made with the value of
    [params] and with its entry ['num_rounds']. *)
Lemma exec_train_calls k :
  ∃ new, calls (exec S_train k).2 = calls k ++ new
    ∧ (new = []
       ∨ ∃ p r err,
           new = [Entry (call_train p r) (environ k) err]
           ∧ globals k !! "params" = Some (VDict p)
           ∧ p !! "num_rounds" = Some r).
Proof.
  run_stmt; all_cases.
  all: rewrite <- ?app_assoc; simpl.
  all: try (exists []; rewrite app_nil_r; split; [reflexivity | by left]).
  all: eexists; split; [reflexivity |]; right.
  all: repeat match goal with
         | Hx : from_option _ _ ?o = Ok _ |- _ =>
             destruct o eqn:?; simplify_eq/=
         end.
  all: unfold as_dict, dict_getitem in *; all_cases.
  all: repeat match goal with
         | Hx : from_option _ _ ?o = Ok _ |- _ =>
             destruct o eqn:?; simplify_eq/=
         end.
  all: eauto 10.
Qed.

(** What the training statement leaves when it returns. *)
Lemma exec_train_result k k' :
  exec S_train k = (Ok (), k') →
  ∃ client dtrain p rounds b h lb lh,
    globals k !! "params" = Some (VDict p)
    ∧ p !! "num_rounds" = Some rounds
    ∧ xgb_train client p dtrain rounds = Ok (b, h)
    ∧ globals k' !! "trained_model" = Some (VDict (trained_model_dict lb lh))
    ∧ heap k' !! lb = Some (HBooster b)
    ∧ heap k' !! lh = Some (HHistory h)
    ∧ (∀ l o, heap k !! l = Some o → heap k' !! l = Some o).
Proof.
  run_stmt.
  destruct (globals k !! "client") as [[]|] eqn:Hc; simpl; try done.
  destruct (globals k !! "params") as [[]|] eqn:Hp; simpl; try done.
  destruct (globals k !! "dtrain") as [[]|] eqn:Hd; simpl; try done.
  rewrite Hp. simpl. unfold dict_getitem.
  destruct (d !! "num_rounds") as [rounds|] eqn:Hr; simpl; try done.
  destruct (xgb_train c d m rounds) as [[b h]|] eqn:Ht; simpl; try done.
  intros [= <-]. simpl.
  set (lb := fresh (dom (heap k))).
  set (lh := fresh (dom (<[lb := HBooster b]> (heap k)))).
  assert (lb ≠ lh) as Hne.
  { intros Heq. apply (is_fresh (dom (<[lb := HBooster b]> (heap k)))).
    fold lh. rewrite <- Heq, dom_insert_L.
    apply elem_of_union; left. by apply elem_of_singleton. }
  exists c, m, d, rounds, b, h, lb, lh.
  split; [done |]. split; [done |]. split; [done |].
  split; [apply lookup_insert_eq |].
  split; [by rewrite lookup_insert_ne, lookup_insert_eq |].
  split; [apply lookup_insert_eq |].
  intros l o Hl. unfold lh. apply alloc_keeps. by apply alloc_keeps.
Qed.

Lemma exec_train_raise k e k' :
  exec S_train k = (Raise e, k') → globals k' = globals k ∧ heap k' = heap k.
Proof. run_stmt. all_cases; by intros [= <- <-]. Qed.

(** A booster that exists stays a booster. *)
Lemma exec_booster_kind s k l b :
  heap k !! l = Some (HBooster b) →
  ∃ b', heap (exec s k).2 !! l = Some (HBooster b').
Proof.
  intros Hl. destruct (decide (s = S_set_param)) as [->|Hs].
  - destruct (exec S_set_param k) as [[[]|e] k'] eqn:Hx; simpl.
    + apply exec_set_param in Hx as (l' & b0 & b' & _ & _ & _ & ->).
      destruct (decide (l' = l)) as [->|Hne].
      * rewrite lookup_insert_eq. by eexists.
      * rewrite lookup_insert_ne by done. by eexists.
    + revert Hx. run_stmt. all_cases; intros [= <- <-]; by eexists.
  - exists b. by apply exec_booster.
Qed.

Lemma exec_training_invariant s k :
  training_invariant k → training_invariant (exec s k).2.
Proof.
  intros (Hparams & Hcalls & Hmodel).
  destruct (decide (s = S_train)) as [->|Hs]; (split; [| split]).
  - intros x. rewrite exec_globals by (by apply (bool_decide_unpack _)). apply Hparams.
  - destruct (exec_train_calls k) as (new & -> & Hnew).
    intros en p r [?|Hen]%elem_of_app Hcallee; [by eapply Hcalls |].
    destruct Hnew as [->|(p' & r' & err & -> & Hp & Hr)];
      [by apply elem_of_nil in Hen |].
    apply list_elem_of_singleton in Hen as ->. simpl in Hcallee.
    simplify_eq. specialize (Hparams _ Hp). simplify_eq.
    rewrite params_num_rounds in Hr. by simplify_eq.
  - intros tm Htm.
    destruct (exec S_train k) as [[[]|e] k'] eqn:Hx; simpl in *.
    + apply exec_train_result in Hx
        as (? & ? & ? & ? & b & h & lb & lh & _ & _ & _ & Hb & Hlb & Hlh & _).
      rewrite Hb in Htm. simplify_eq. by exists lb, lh, b, h.
    + apply exec_train_raise in Hx as [Hg Hh]. rewrite Hg in Htm.
      destruct (Hmodel tm Htm) as (lb & lh & b & h & -> & Hlb & Hlh).
      exists lb, lh, b, h. by rewrite Hh.
  - intros x. destruct (decide (s = S_params)) as [->|Hp].
    + run_stmt. rewrite lookup_insert_eq. congruence.
    + rewrite exec_globals; [apply Hparams |].
      destruct s; try done; by apply (bool_decide_unpack _).
  - destruct (exec_calls_not_train s k Hs) as (new & -> & Hnew).
    intros en p r [?|Hen]%elem_of_app Hcallee; [by eapply Hcalls |].
    rewrite Forall_forall in Hnew. specialize (Hnew en Hen).
    rewrite Hcallee in Hnew. done.
  - intros tm.
    rewrite exec_globals by (destruct s; try done; by apply (bool_decide_unpack _)).
    intros (lb & lh & b & h & -> & Hlb & Hlh)%Hmodel.
    destruct (exec_booster_kind s k lb b Hlb) as [b' Hb'].
    exists lb, lh, b', h. split; [done |]. split; [done |].
    by apply exec_history.
Qed.


Lemma filter_sublist_mono {A} (P : A → Prop) `{∀ x, Decision (P x)} (l1 l2 : list A) :
  l1 `sublist_of` l2 → filter P l1 `sublist_of` filter P l2.
Proof.
  induction 1 as [|x l1 l2 _ IH|x l1 l2 _ IH]; [done | |];
    rewrite ?filter_cons; case_decide; try done.
  - by apply sublist_skip.
  - by apply sublist_cons.
Qed.

Lemma exec_train_count s k :
  (length (filter (λ en, is_train (callee en) = true) (calls (exec s k).2))
   ≤ length (filter (λ en, is_train (callee en) = true) (calls k))
     + length (filter (λ s', s' = S_train) [s]))%nat.
Proof.
  destruct (decide (s = S_train)) as [->|Hs].
  - destruct (exec_train_calls k) as (new & -> & [->|(p & r & err & -> & _)]).
    + rewrite app_nil_r. lia.
    + rewrite filter_app, length_app. simpl. lia.
  - destruct (exec_calls_not_train s k Hs) as (new & -> & Hnew).
    rewrite filter_app, length_app.
    assert (filter (λ en, is_train (callee en) = true) new = []) as ->.
    { induction Hnew as [|en new Hen _ IH]; [done |].
      rewrite filter_cons, IH. case_decide; congruence. }
    simpl. lia.
Qed.

Lemma run_train_count prog k :
  (length (filter (λ en, is_train (callee en) = true) (calls (run prog k).2))
   ≤ length (filter (λ en, is_train (callee en) = true) (calls k))
     + length (filter (λ s, s = S_train) prog))%nat.
Proof.
  revert k. induction prog as [|s prog IH]; intros k; simpl; [lia |].
  pose proof (exec_train_count s k) as Hs. specialize (IH (exec s k).2).
  change (filter (λ s0 : stmt, s0 = S_train) (s :: prog))
    with (filter (λ s0 : stmt, s0 = S_train) ([s] ++ prog)).
  rewrite filter_app, length_app.
  destruct (exec s k) as [[[]|e] k1]; simpl in *; lia.
Qed.

(** The training statement, when it returns, has logged its call. *)
Lemma exec_train_logged k :
  (exec S_train k).1 = Ok () →
  ∃ en, en ∈ calls (exec S_train k).2 ∧ is_train (callee en) = true.
Proof.
  run_stmt.
  destruct (globals k !! "client") as [[]|] eqn:Hc; simpl; try done.
  destruct (globals k !! "params") as [[]|] eqn:Hp; simpl; try done.
  destruct (globals k !! "dtrain") as [[]|] eqn:Hd; simpl; try done.
  rewrite Hp. simpl. unfold dict_getitem.
  destruct (d !! "num_rounds") as [rounds|] eqn:Hr; simpl; try done.
  destruct (xgb_train c d m rounds) as [[b h]|] eqn:Ht; simpl; try done.
  intros _. eexists. split; [| shelve].
  apply elem_of_app. right. apply list_elem_of_here.
  Unshelve. done.
Qed.

(** A run of the whole notebook that comes to its end has made the
    training call. *)
Lemma run_notebook_trains k :
  (run notebook k).1 = Ok () →
  ∃ en, en ∈ calls (run notebook k).2 ∧ is_train (callee en) = true.
Proof.
  change notebook with (take 23 notebook ++ [S_train] ++ drop 24 notebook).
  intros [Hpre Hrest]%run_app_ok_inv.
  rewrite (run_app_ok _ _ _ Hpre).
  apply run_app_ok_inv in Hrest as [Htrain Hpost].
  rewrite (run_app_ok _ _ _ Htrain).
  set (k1 := (run (take 23 notebook) k).2) in *.
  assert ((run [S_train] k1).2 = (exec S_train k1).2) as Hk2.
  { cbn [run]. by destruct (exec S_train k1) as [[[]|e] k2]. }
  assert ((exec S_train k1).1 = Ok ()) as Hok.
  { revert Htrain. cbn [run]. by destruct (exec S_train k1) as [[[]|e] k2]. }
  destruct (exec_train_logged k1 Hok) as (en & Hen & Hcallee).
  exists en. split; [| done]. apply run_keeps_calls. by rewrite Hk2.
Qed.

(** C6: in every prefix of the run of the notebook, a training call has
    been made at most once (exactly once when the whole notebook has
    run), and with the hyperparameters of In [7] and the number of
    rounds that their entry ['num_rounds'] gives, 100; the
    name [trained_model] is bound, if at all, to a dictionary whose
    entries ['booster'] and ['history'] refer to a booster and an
    evaluation history; and when the training statement returns, these
    are the booster and the history that the training call returned. *)
Theorem training_call (env : gmap string string) (n : nat) :
  let k := (run (take n notebook) (boot env)).2 in
  (∀ en p r, en ∈ calls k → callee en = call_train p r →
             p = params_dict ∧ r = VInt 100
             ∧ params_dict !! "num_rounds" = Some (VInt 100))
  ∧ (length (filter (λ en, is_train (callee en) = true) (calls k)) ≤ 1)%nat
  ∧ ((run notebook (boot env)).1 = Ok () →
     length (filter (λ en, is_train (callee en) = true)
               (calls (run notebook (boot env)).2)) = 1%nat)
  ∧ (∀ tm, globals k !! "trained_model" = Some tm →
           ∃ lb lh b h,
             tm = VDict (trained_model_dict lb lh)
             ∧ trained_model_dict lb lh !! "booster" = Some (VRef lb)
             ∧ trained_model_dict lb lh !! "history" = Some (VRef lh)
             ∧ heap k !! lb = Some (HBooster b)
             ∧ heap k !! lh = Some (HHistory h))
  ∧ (∀ k0 k1,
       globals k0 !! "params" = Some (VDict params_dict) →
       exec S_train k0 = (Ok (), k1) →
       ∃ client dtrain b h lb lh,
         xgb_train client params_dict dtrain (VInt 100) = Ok (b, h)
         ∧ globals k1 !! "trained_model" = Some (VDict (trained_model_dict lb lh))
         ∧ heap k1 !! lb = Some (HBooster b)
         ∧ heap k1 !! lh = Some (HHistory h)).
Proof.
  intros k.
  assert (training_invariant k) as (Hparams & Hcalls & Hmodel).
  { apply run_invariant; [apply exec_training_invariant |].
    split; [| split]; simpl.
    - intros x Hx. by rewrite lookup_empty in Hx.
    - by intros en p r ?%elem_of_nil.
    - intros tm Hx. by rewrite lookup_empty in Hx. }
  split; [| split; [| split; [| split]]].
  - intros en p r Hen Hcallee. destruct (Hcalls en p r Hen Hcallee) as [-> ->].
    by rewrite params_num_rounds.
  - pose proof (run_train_count (take n notebook) (boot env)) as Hcount.
    fold k in Hcount. simpl in Hcount.
    assert (length (filter (λ s, s = S_train) (take n notebook)) ≤ 1)%nat; [| lia].
    change 1%nat with (length (filter (λ s, s = S_train) notebook)).
    apply sublist_length, filter_sublist_mono, sublist_take.
  - intros Hok.
    pose proof (run_train_count notebook (boot env)) as Hcount.
    destruct (run_notebook_trains (boot env) Hok) as (en & Hen & Hcallee).
    set (kf := (run notebook (boot env)).2) in *.
    assert (en ∈ filter (λ en, is_train (callee en) = true) (calls kf)) as Hin
      by (by apply list_elem_of_filter).
    simpl in Hcount.
    destruct (filter _ (calls kf)) as [|? [|? ?]];
      [by apply elem_of_nil in Hin | done | simpl in Hcount; lia].
  - intros tm (lb & lh & b & h & -> & Hlb & Hlh)%Hmodel.
    by exists lb, lh, b, h.
  - intros k0 k1 Hp Hexec.
    apply exec_train_result in Hexec
      as (client & dtrain & p & rounds & b & h & lb & lh
          & Hp' & Hr & Htrain & Htm & Hlb & Hlh & _).
    rewrite Hp in Hp'. simplify_eq. rewrite params_num_rounds in Hr. simplify_eq.
    by exists client, dtrain, b, h, lb, lh.
Qed.

End Training.

(** *** The address of the cluster, in the run *)

Section Address.
Context `{External}.

(** When the decoded output of [hostname] is blank, the statement that
    binds [IPADDR] raises [IndexError]; the run ends there, with the call
    that decoded the output as its last call and no name bound. *)
Lemma run_blank_output k output text rest :
  globals k !! "output" = Some (VBytes output) →
  bytes_decode output = Ok text →
  blank text = true →
  run (S_IPADDR :: rest) k
  = (Raise IndexError,
     Kernel (environ k) (globals k) (heap k)
       (calls k ++ [Entry call_decode (environ k) None]) (stdout k)).
Proof.
  intros Hout Hdec Hblank. simpl. run_stmt.
  rewrite Hout. simpl. rewrite Hdec. simpl.
  by rewrite (first_token_blank text Hblank).
Qed.

(** C9: the address is the first whitespace-separated token of the
    decoded output of [hostname]; it has a value exactly when the output
    holds a token; on an empty or blank output the indexing raises
    [IndexError], and the run ends before the cluster is created. *)
Theorem IPADDR_extraction :
  (∀ ws tok rest,
     blank ws = true → solid tok = true → tok ≠ "" → token_end rest = true →
     first_token (ws +:+ tok +:+ rest) = Ok tok)
  ∧ (∀ text, blank text = true → first_token text = Raise IndexError)
  ∧ (∀ text, blank text = false →
       ∃ ws tok rest,
         text = ws +:+ tok +:+ rest ∧ blank ws = true ∧ solid tok = true
         ∧ tok ≠ "" ∧ token_end rest = true ∧ first_token text = Ok tok)
  ∧ first_token "" = Raise IndexError
  ∧ first_token (String " " (String "010" "")) = Raise IndexError
  ∧ (∀ k output text rest,
       globals k !! "output" = Some (VBytes output) →
       bytes_decode output = Ok text →
       blank text = true →
       run (S_IPADDR :: rest) k
       = (Raise IndexError,
          Kernel (environ k) (globals k) (heap k)
            (calls k ++ [Entry call_decode (environ k) None]) (stdout k))).
Proof.
  split; [exact first_token_of |]. split; [exact first_token_blank |].
  split.
  { intros text (ws & tok & rest & -> & ? & ? & ? & ?)%not_blank_token.
    exists ws, tok, rest. repeat (split; [done |]). by apply first_token_of. }
  split; [reflexivity |]. split; [reflexivity |].
  exact run_blank_output.
Qed.

End Address.

(** On a machine whose [hostname] prints a blank line, the notebook ends
    with [IndexError] after four external calls, none of them the cluster
    constructor. *)
Example run_without_address :
  (@run _ toy_no_address notebook (boot ∅)).1 = Raise IndexError
  ∧ callee <$> calls (@run _ toy_no_address notebook (boot ∅)).2
    = [call_import; call_Popen ["hostname"; "--all-ip-addresses"];
       call_communicate; call_decode].
Proof. split; vm_compute; reflexivity. Qed.

Lemma IPADDR_extraction_witness :
  first_token (" " +:+ "10.33.227.157" +:+ " 172.17.0.1") = Ok "10.33.227.157"
  ∧ first_token " " = Raise IndexError
  ∧ (∃ ws tok rest,
       "10.33.227.157 172.17.0.1" = ws +:+ tok +:+ rest ∧ blank ws = true
       ∧ solid tok = true ∧ tok ≠ "" ∧ token_end rest = true
       ∧ first_token "10.33.227.157 172.17.0.1" = Ok tok)
  ∧ (@run _ toy_no_address (S_IPADDR :: [S_cluster; S_client])
       (Kernel ∅ {["output" := VBytes (list_byte_of_string " ")]} ∅ [] [])).1
    = Raise IndexError.
Proof.
  pose proof (@IPADDR_extraction _ toy_no_address) as (H1 & H2 & H3 & _ & _ & H4).
  split; [by apply H1 |]. split; [by apply H2 |]. split; [by apply H3 |].
  by rewrite (H4 _ (list_byte_of_string " ") " ").
Defined.

(** *** Features and labels of the two subsets *)

Lemma elem_of_concat {A} (x : A) (ls : list (list A)) :
  x ∈ concat ls ↔ ∃ l, x ∈ l ∧ l ∈ ls.
Proof.
  induction ls as [|l ls IH]; simpl.
  - split; [by intros ?%elem_of_nil | by intros (l & _ & ?%elem_of_nil)].
  - rewrite elem_of_app, IH. split.
    + intros [?|(l' & ? & ?)]; [exists l | exists l'];
        (split; [done |]); [left | by right].
    + intros (l' & Hx & [->|?]%elem_of_cons); [by left | right; by exists l'].
Qed.

(** A subset made by one of the two queries is a table with the columns
    [x] and [y]. *)
Lemma subset_xy_table xs ys cdf ddf op sub :
  cudf_DataFrame ("x", IntColumn xs) ("y", FloatColumn ys) = Ok cdf →
  from_cudf cdf npartitions = Ok ddf →
  dask_query (the_query op) ddf = Ok sub →
  xy_table sub.
Proof.
  intros Hcdf Hddf Hq.
  destruct (split_rows _ _ _ _ op Hcdf Hddf) as (sub' & Hq' & Hm & _ & Hs & Hr).
  rewrite Hq in Hq'. simplify_eq.
  split; [| split; [done |]].
  { rewrite Hm. by apply cudf_DataFrame_xy in Hcdf as [_ ->]. }
  apply Forall_forall. intros p Hp. apply Forall_forall. intros r Hrp.
  assert (r ∈ rows (dask_compute sub')) as Hin.
  { simpl. apply elem_of_concat. exists (rows p).
    split; [done |]. by apply list_elem_of_fmap_2. }
  rewrite Hr in Hin. apply list_elem_of_filter in Hin as [_ Hin].
  apply (cudf_DataFrame_rows _ _ _ _ Hcdf) in Hin as (i & x & y & _ & _ & ->).
  done.
Qed.

Lemma concat_fmap_rows (f : row → row) cols (ps : list DataFrame) :
  concat (rows <$> ((λ p, Frame cols (f <$> rows p)) <$> ps))
  = f <$> concat (rows <$> ps).
Proof.
  induction ps as [|p ps IH]; csimpl; [done |]. by rewrite fmap_app, IH.
Qed.

Lemma features_rows t X :
  xy_table t → features t = Ok X →
  meta X = [("y", float64)]
  ∧ rows (dask_compute X) = project [1%nat] <$> rows (dask_compute t).
Proof.
  intros Ht. rewrite (features_xy t Ht). intros [= <-].
  split; [done |]. simpl. apply concat_fmap_rows.
Qed.

Lemma target_rows t Y :
  xy_table t → target t = Ok Y →
  meta Y = [("x", int64)]
  ∧ rows (dask_compute Y) = project [0%nat] <$> rows (dask_compute t).
Proof.
  intros Ht. rewrite (target_xy t Ht). intros [= <-].
  split; [done |]. simpl. apply concat_fmap_rows.
Qed.

(** The feature rows of a subset: the [y] cell of a row of the table that
    the query keeps. *)
Lemma features_of_subset xs ys cdf ddf op sub X r :
  cudf_DataFrame ("x", IntColumn xs) ("y", FloatColumn ys) = Ok cdf →
  from_cudf cdf npartitions = Ok ddf →
  dask_query (the_query op) ddf = Ok sub →
  features sub = Ok X →
  r ∈ rows (dask_compute X) →
  ∃ x y, Row (label r) [CInt x; CFloat y] ∈ rows cdf
         ∧ cells r = [CFloat y] ∧ compare_holds op y half = true.
Proof.
  intros Hcdf Hddf Hq HX Hr.
  pose proof (subset_xy_table _ _ _ _ _ _ Hcdf Hddf Hq) as Hxy.
  destruct (features_rows _ _ Hxy HX) as [_ Hrows].
  destruct (split_rows _ _ _ _ op Hcdf Hddf) as (sub' & Hq' & _ & _ & _ & Hsub).
  rewrite Hq in Hq'. simplify_eq.
  rewrite Hrows, Hsub in Hr.
  apply list_elem_of_fmap in Hr as (r0 & -> & Hr0).
  apply list_elem_of_filter in Hr0 as [Hsat Hr0].
  pose proof Hr0 as Hin.
  apply (cudf_DataFrame_rows _ _ _ _ Hcdf) in Hr0 as (i & x & y & _ & _ & ->).
  exists x, y. rewrite row_satisfies_xy in Hsat.
  split; [done |]. split; [done |]. by apply Is_true_true.
Qed.

(** X1: the features of the training subset are [y] values below 0.5 and
    those of the test subset are [y] values above 0.5: each subset has the
    single feature column [y], and no feature row of the test subset has
    the cells of a feature row of the training subset. *)
Theorem features_separated xs ys cdf ddf :
  cudf_DataFrame ("x", IntColumn xs) ("y", FloatColumn ys) = Ok cdf →
  from_cudf cdf npartitions = Ok ddf →
  ∃ train test X_train X_test,
    dask_query (the_query OpLt) ddf = Ok train
    ∧ features train = Ok X_train
    ∧ dask_query (the_query OpGt) ddf = Ok test
    ∧ features test = Ok X_test
    ∧ meta X_train = [("y", float64)]
    ∧ meta X_test = [("y", float64)]
    ∧ (∀ r, r ∈ rows (dask_compute X_train) →
            ∃ y, cells r = [CFloat y] ∧ SFltb y half = true)
    ∧ (∀ r, r ∈ rows (dask_compute X_test) →
            ∃ y, cells r = [CFloat y] ∧ SFltb half y = true)
    ∧ (∀ r r', r ∈ rows (dask_compute X_train) →
               r' ∈ rows (dask_compute X_test) → cells r ≠ cells r').
Proof.
  intros Hcdf Hddf.
  destruct (split_rows _ _ _ _ OpLt Hcdf Hddf) as (train & Ht & _).
  destruct (split_rows _ _ _ _ OpGt Hcdf Hddf) as (test & Hs & _).
  pose proof (subset_xy_table _ _ _ _ _ _ Hcdf Hddf Ht) as Hxt.
  pose proof (subset_xy_table _ _ _ _ _ _ Hcdf Hddf Hs) as Hxs.
  pose proof (features_xy train Hxt) as HXt.
  pose proof (features_xy test Hxs) as HXs.
  eexists train, test, _, _.
  split; [done |]. split; [exact HXt |]. split; [done |]. split; [exact HXs |].
  split; [done |]. split; [done |].
  assert (∀ r, r ∈ rows (dask_compute
                 (Dask [("y", float64)]
                    ((λ p, Frame [("y", float64)] (project [1%nat] <$> rows p))
                       <$> partitions train))) →
               ∃ y, cells r = [CFloat y] ∧ SFltb y half = true) as Hlow.
  { intros r Hr.
    destruct (features_of_subset _ _ _ _ _ _ _ r Hcdf Hddf Ht HXt Hr)
      as (x & y & _ & Hc & Hy).
    by exists y. }
  assert (∀ r, r ∈ rows (dask_compute
                 (Dask [("y", float64)]
                    ((λ p, Frame [("y", float64)] (project [1%nat] <$> rows p))
                       <$> partitions test))) →
               ∃ y, cells r = [CFloat y] ∧ SFltb half y = true) as Hhigh.
  { intros r Hr.
    destruct (features_of_subset _ _ _ _ _ _ _ r Hcdf Hddf Hs HXs Hr)
      as (x & y & _ & Hc & Hy).
    by exists y. }
  split; [exact Hlow |]. split; [exact Hhigh |].
  intros r r' Hr Hr' Heq.
  destruct (Hlow r Hr) as (y & Hc & Hy).
  destruct (Hhigh r' Hr') as (y' & Hc' & Hy').
  rewrite Hc, Hc' in Heq. simplify_eq.
  apply SFltb_asym in Hy. congruence.
Qed.

Lemma features_separated_witness :
  let ys := [S754_zero false; half; S754_finite false 4503599627370496 (-52)] in
  ∃ cdf ddf X_train X_test,
    cudf_DataFrame ("x", IntColumn [3; 5; 1]) ("y", FloatColumn ys) = Ok cdf
    ∧ from_cudf cdf npartitions = Ok ddf
    ∧ (∀ r, r ∈ rows (dask_compute X_train) →
            ∃ y, cells r = [CFloat y] ∧ SFltb y half = true)
    ∧ (∀ r, r ∈ rows (dask_compute X_test) →
            ∃ y, cells r = [CFloat y] ∧ SFltb half y = true).
Proof.
  intros ys. eexists _, _.
  edestruct (features_separated [3; 5; 1] ys)
    as (train & test & X_train & X_test & _ & _ & _ & _ & _ & _ & H1 & H2 & _);
    [reflexivity | reflexivity |].
  exists X_train, X_test. by repeat split.
Defined.

(** X2: features and labels are taken from the same rows: for a table with
    the columns [x] and [y], the features are the column [y] and the
    labels are the column [x], shard by shard, with the same index labels
    in the same order; putting the cells of a label row and of the feature
    row at the same place side by side gives back the rows of the
    table. *)
Theorem features_labels_aligned (t : DaskDataFrame) :
  xy_table t →
  ∃ X Y,
    features t = Ok X ∧ target t = Ok Y
    ∧ meta X = [("y", float64)] ∧ meta Y = [("x", int64)]
    ∧ Forall2 (λ px py, label <$> rows px = label <$> rows py)
        (partitions X) (partitions Y)
    ∧ Forall2 (λ px p, label <$> rows px = label <$> rows p)
        (partitions X) (partitions t)
    ∧ zip_with
        (λ px py, zip_with (λ rx ry, Row (label rx) (cells ry ++ cells rx))
                    (rows px) (rows py))
        (partitions X) (partitions Y)
      = rows <$> partitions t.
Proof.
  intros Ht. eexists _, _.
  split; [by apply features_xy |]. split; [by apply target_xy |].
  split; [done |]. split; [done |]. simpl.
  destruct Ht as (_ & _ & Hrows).
  split; [| split].
  - apply Forall2_fmap. apply Forall_Forall2_diag.
    apply Forall_true. intros p. simpl.
    by rewrite <- !list_fmap_compose.
  - apply Forall2_fmap_l. apply Forall_Forall2_diag.
    apply Forall_true. intros p. simpl.
    by rewrite <- !list_fmap_compose.
  - induction Hrows as [|p ps Hp _ IH]; csimpl; [done |].
    f_equal; [| exact IH].
    clear IH. induction Hp as [|r rs Hr _ IH]; csimpl; [done |].
    f_equal; [| exact IH].
    destruct r as [l c]. unfold xy_row in Hr. simpl in Hr.
    by destruct c as [|[x|] [|[|y] [|]]].
Qed.

Lemma features_labels_aligned_witness :
  ∃ X Y,
    features example_test = Ok X ∧ target example_test = Ok Y
    ∧ zip_with
        (λ px py, zip_with (λ rx ry, Row (label rx) (cells ry ++ cells rx))
                    (rows px) (rows py))
        (partitions X) (partitions Y)
      = rows <$> partitions example_test.
Proof.
  edestruct (features_labels_aligned example_test)
    as (X & Y & HX & HY & _ & _ & _ & _ & Hzip).
  - split; [reflexivity |]. split; by repeat constructor.
  - by exists X, Y.
Defined.

(** The features of a table with the columns [x] and [y], as a table of
    their own. *)
Lemma features_again t X :
  xy_table t → features t = Ok X →
  target X = Raise (KeyError "x") ∧ features X = Ok X.
Proof.
  intros Ht. rewrite (features_xy t Ht). intros [= <-].
  split; [reflexivity |].
  unfold features. simpl.
  rewrite (dask_select_columns_at _ [0%nat]); [| done |].
  2:{ unfold same_schema. simpl. by apply Forall_fmap, Forall_true. }
  simpl. do 2 f_equal. rewrite <- list_fmap_compose.
  apply Forall_fmap_ext_1. destruct Ht as (_ & _ & Hrows).
  eapply Forall_impl; [exact Hrows |]. intros p Hp. simpl. f_equal.
  rewrite <- list_fmap_compose. apply Forall_fmap_ext_1.
  eapply Forall_impl; [exact Hp |]. intros [l c] Hr.
  unfold xy_row in Hr. simpl in Hr.
  by destruct c as [|[x|] [|[|y] [|]]].
Qed.

Section Projection.
Context `{External}.

(** X3: the labels have to be taken before the features replace the subset:
    once [X_train] holds the features only, column [x] is gone from it,
    so that [X_train[['x']]] raises [KeyError] and the statement that
    binds [Y_train] fails without binding anything, while taking the
    features of the features changes nothing. *)
Theorem labels_before_features (t X : DaskDataFrame) :
  xy_table t → features t = Ok X →
  target X = Raise (KeyError "x")
  ∧ features X = Ok X
  ∧ ∀ k, globals k !! "X_train" = Some (VDaskFrame X) →
         exec S_Y_train k = (Raise (KeyError "x"), k)
         ∧ (exec S_X_train k).1 = Ok ()
         ∧ globals (exec S_X_train k).2 = <["X_train" := VDaskFrame X]> (globals k).
Proof.
  intros Ht HX. destruct (features_again t X Ht HX) as [Htarget Hfeatures].
  split; [done |]. split; [done |].
  intros k Hk. run_stmt. rewrite Hk. simpl. by rewrite Htarget, Hfeatures.
Qed.

End Projection.

Lemma labels_before_features_witness :
  ∃ X, features example_test = Ok X
       ∧ target X = Raise (KeyError "x") ∧ features X = Ok X.
Proof.
  eexists. split; [reflexivity |].
  edestruct (@labels_before_features _ toy example_test) as (H1 & H2 & _);
    [| reflexivity | by split].
  split; [reflexivity |]. split; by repeat constructor.
Defined.

(** *** The rows that the split drops *)

Lemma SFcompare_nan (y k : spec_float) :
  k ≠ S754_nan → SFcompare y k = None → y = S754_nan.
Proof.
  intros Hk. destruct y as [s|s| |s m e], k as [s'|s'| |s' m' e']; try done.
Qed.

Lemma SFltb_neither (y : spec_float) :
  SFltb y half = false ∧ SFltb half y = false
  ↔ SFeqb y half = true ∨ y = S754_nan.
Proof.
  unfold SFltb, SFeqb. rewrite (SFcompare_antisym y half).
  destruct (SFcompare y half) as [[]|] eqn:Hc; simpl.
  - split; [by left | done].
  - split; [by intros [? _] |]. intros [?| ->]; done.
  - split; [by intros [_ ?] |]. intros [?| ->]; done.
  - split; [| done]. intros _. right.
    by apply (SFcompare_nan y half).
Qed.

(** X4: the split drops exactly the rows whose [y] value equals 0.5 or is not
    a number: a row of the generated table is in neither subset exactly
    then. *)
Theorem split_drops_exactly xs ys cdf ddf train test r x y :
  cudf_DataFrame ("x", IntColumn xs) ("y", FloatColumn ys) = Ok cdf →
  from_cudf cdf npartitions = Ok ddf →
  dask_query (the_query OpLt) ddf = Ok train →
  dask_query (the_query OpGt) ddf = Ok test →
  r ∈ rows cdf → cells r = [CInt x; CFloat y] →
  ((r ∉ rows (dask_compute train)) ∧ (r ∉ rows (dask_compute test)))
  ↔ (SFeqb y half = true ∨ y = S754_nan).
Proof.
  intros Hcdf Hddf Ht Hs Hr Hcells.
  destruct (split_rows _ _ _ _ OpLt Hcdf Hddf) as (? & Ht' & _ & _ & _ & Htr).
  destruct (split_rows _ _ _ _ OpGt Hcdf Hddf) as (? & Hs' & _ & _ & _ & Hsr).
  rewrite Ht in Ht'. rewrite Hs in Hs'. simplify_eq.
  rewrite Htr, Hsr, !list_elem_of_filter.
  destruct r as [l c]. simpl in Hcells. subst c.
  rewrite !row_satisfies_xy. unfold compare_holds.
  rewrite <- SFltb_neither.
  destruct (SFltb y half), (SFltb half y); simpl; split.
  all: try (intros [H1 H2]; exfalso; first [by apply H1 | by apply H2]).
  all: try (intros [? ?]; done).
  all: try (intros _; split; by intros [? _]).
Qed.

Lemma split_drops_exactly_witness :
  let xs := [3; 5; 1] in
  let ys := [S754_zero false; S754_nan; S754_finite false 4503599627370496 (-52)] in
  let r := Row 1 [CInt 5; CFloat S754_nan] in
  ∃ cdf train test,
    cudf_DataFrame ("x", IntColumn xs) ("y", FloatColumn ys) = Ok cdf
    ∧ r ∈ rows cdf
    ∧ (r ∉ rows (dask_compute train)) ∧ (r ∉ rows (dask_compute test)).
Proof.
  intros xs ys r. eexists _, _, _. split; [reflexivity |].
  assert (r ∈ [Row 0 [CInt 3; CFloat (S754_zero false)]; r;
               Row 2 [CInt 1; CFloat (S754_finite false 4503599627370496 (-52))]])
    as Hr by (apply list_elem_of_further, list_elem_of_here).
  split; [exact Hr |].
  eapply (proj2 (split_drops_exactly xs ys _ _ _ _ r 5 S754_nan
                   eq_refl eq_refl eq_refl eq_refl Hr eq_refl)).
  by right.
Defined.

(** *** The size of the shards *)

Lemma shards_lookup {A} (n c i : nat) (l : list A) :
  (i < n)%nat → shards n c l !! i = Some (take c (drop (i * c) l)).
Proof.
  revert i l. induction n as [|n IH]; intros i l Hi; [lia |].
  destruct i as [|i]; simpl; [done |].
  rewrite IH by lia. by rewrite drop_drop.
Qed.

Lemma chunksize_multiple (n c : nat) : (0 < n)%nat → chunksize (n * c) n = c.
Proof.
  intros Hn. unfold chunksize.
  replace (n * c + n - 1)%nat with (c * n + (n - 1))%nat by lia.
  rewrite Nat.div_add_l by lia. rewrite Nat.div_small by lia. lia.
Qed.



(** *** The process environment and the order of the external calls *)

Section Order.
Context `{External}.

Lemma run_environ prog k : S_env ∉ prog → environ (run prog k).2 = environ k.
Proof.
  revert k. induction prog as [|s prog IH]; intros k Hs; simpl; [done |].
  apply not_elem_of_cons in Hs as [Hs Hprog].
  pose proof (exec_environ s k ltac:(done)) as Hstep.
  destruct (exec s k) as [[[]|e] k1]; simpl in *; [| done].
  by rewrite IH.
Qed.


(** The external calls that one statement makes are those that the source
    shows, in that order; a statement that fails has made the first of
    them only. *)
Lemma exec_call_names s k :
  ∃ new, calls (exec s k).2 = calls k ++ new
    ∧ call_names new `prefix_of` stmt_calls s
    ∧ ((exec s k).1 = Ok () → call_names new = stmt_calls s).
Proof.
  unfold call_names. destruct s; run_stmt; all_cases.
  all: rewrite <- ?app_assoc; simpl.
  all: try (exists []; rewrite app_nil_r; split; [reflexivity |];
            split; [apply prefix_nil | done]).
  all: eexists; (split; [reflexivity |]); simpl;
       (split; [by eexists | done]).
Qed.

Lemma run_call_names prog k :
  ∃ new, calls (run prog k).2 = calls k ++ new
    ∧ call_names new `prefix_of` concat (stmt_calls <$> prog)
    ∧ ((run prog k).1 = Ok () → call_names new = concat (stmt_calls <$> prog)).
Proof.
  revert k. induction prog as [|s prog IH]; intros k; csimpl.
  { exists []. by rewrite app_nil_r. }
  destruct (exec_call_names s k) as (n1 & Hcalls & Hpre & Hok).
  destruct (exec s k) as [[[]|e] k1]; simpl in *.
  - destruct (IH k1) as (n2 & Hcalls2 & Hpre2 & Hok2).
    exists (n1 ++ n2). rewrite Hcalls2, Hcalls, app_assoc.
    split; [done |]. unfold call_names in *. rewrite fmap_app, Hok by done.
    split; [by apply prefix_app | intros Hrun; by rewrite Hok2].
  - exists n1. split; [done |]. split; [by apply prefix_app_r | done].
Qed.

(** X7: the notebook calls the libraries in the order of the source, each
    operation at most once: whatever the libraries answer and wherever the
    run stops, the calls made are the first so many of the fourteen calls
    of the source, and all fourteen when the notebook has run to its
    end.  So the client is made after the cluster, the data before the
    training call, and no prediction is asked for before the training
    call and [set_param] have been made. *)
Theorem calls_in_source_order (k0 : kernel) (n : nat) :
  NoDup external_calls
  ∧ (∃ new m, calls (run (take n notebook) k0).2 = calls k0 ++ new
              ∧ call_names new = take m external_calls)
  ∧ ((run notebook k0).1 = Ok () →
     ∃ new, calls (run notebook k0).2 = calls k0 ++ new
            ∧ call_names new = external_calls).
Proof.
  split; [by apply (bool_decide_unpack _) |]. split.
  - destruct (run_call_names (take n notebook) k0) as (new & Hcalls & Hpre & _).
    exists new, (length (call_names new)). split; [done |].
    assert (call_names new `prefix_of` external_calls) as [rest ->].
    { etrans; [exact Hpre |].
      change external_calls with (concat (stmt_calls <$> notebook)).
      rewrite <- (take_drop n notebook) at 2.
      rewrite fmap_app, concat_app. by apply prefix_app_r. }
    by rewrite take_app_length.
  - intros Hok.
    destruct (run_call_names notebook k0) as (new & Hcalls & _ & Hall).
    exists new. split; [done |]. by rewrite Hall.
Qed.

End Order.

(** *** The training statement and the model, for any hyperparameters *)

Section Model.
Context `{External}.

Lemma fresh_twice (hp : gmap positive hobj) (o : hobj) :
  let lb := fresh (dom hp) in
  let lh := fresh (dom (<[lb := o]> hp)) in
  lb ≠ lh ∧ hp !! lb = None ∧ hp !! lh = None.
Proof.
  intros lb lh.
  assert (lb ∉ dom hp) as Hlb by apply is_fresh.
  assert (lh ∉ dom (<[lb := o]> hp)) as Hlh by apply is_fresh.
  rewrite dom_insert_L in Hlh.
  apply not_elem_of_union in Hlh as [Hne%not_elem_of_singleton Hlh].
  split; [done |]. by split; apply not_elem_of_dom.
Qed.


(** X9: [booster] and [trained_model["booster"]] are one object: the cell
    that binds [booster] and [history] and calls [booster.set_param]
    changes the model that [trained_model] refers to.  When [set_param]
    returns, the object at the address that both names hold is the booster
    that [set_param] made, [trained_model] is bound as before, and an
    evaluation history in the heap is as before; when it raises, the heap
    is as before. *)
Theorem set_param_reaches_trained_model k (tm : gmap string pyobj) lb hv b :
  globals k !! "trained_model" = Some (VDict tm) →
  tm !! "booster" = Some (VRef lb) →
  tm !! "history" = Some hv →
  heap k !! lb = Some (HBooster b) →
  let k' := (run cell_model k).2 in
  globals k' !! "trained_model" = Some (VDict tm)
  ∧ globals k' !! "booster" = Some (VRef lb)
  ∧ globals k' !! "history" = Some hv
  ∧ (∀ l h, heap k !! l = Some (HHistory h) → heap k' !! l = Some (HHistory h))
  ∧ match Booster_set_param b [("predictor", "gpu_predictor")] with
    | Ok b' =>
        (run cell_model k).1 = Ok ()
        ∧ heap k' = <[lb := HBooster b']> (heap k)
        ∧ heap k' !! lb = Some (HBooster b')
    | Raise e => (run cell_model k).1 = Raise e ∧ heap k' = heap k
    end.
Proof.
  intros Htm Hb Hh Hlb k'. subst k'.
  unfold cell_model. cbn [run]. run_stmt.
  rewrite Htm. simpl. unfold dict_getitem. rewrite Hb. simpl.
  rewrite lookup_insert_ne, Htm by done. simpl. rewrite Hh. simpl.
  rewrite lookup_insert_ne, lookup_insert_eq by done. simpl.
  rewrite Hlb. simpl.
  destruct (Booster_set_param b _) as [b'|e]; simpl.
  - rewrite !lookup_insert_ne, Htm by done.
    rewrite !lookup_insert_eq.
    do 3 (split; [done |]). split; [| done].
    intros l h Hl. rewrite lookup_insert_ne; [done |]. intros <-. congruence.
  - rewrite !lookup_insert_ne, Htm by done. rewrite !lookup_insert_eq.
    done.
Qed.

(** X10: training again does not reach [booster].  When the training
    cell is run in a kernel where [booster] is bound to a model, and
    returns, [trained_model] refers to a new booster at another address,
    while [booster] is bound to the address it had and the object there
    is the model it was: until the cell that binds [booster] is run
    again, the first metric cell computes and prints the metric of the
    old model. *)
Theorem retraining_leaves_booster k c m lb b :
  globals k !! "client" = Some (VClient c) →
  globals k !! "dtrain" = Some (VDMatrix m) →
  globals k !! "booster" = Some (VRef lb) →
  heap k !! lb = Some (HBooster b) →
  (run cell_train k).1 = Ok () →
  let k' := (run cell_train k).2 in
  globals k' !! "booster" = Some (VRef lb)
  ∧ heap k' !! lb = Some (HBooster b)
  ∧ (∃ lb' lh' b' h',
       lb' ≠ lb
       ∧ xgb_train c params_dict m (VInt 100) = Ok (b', h')
       ∧ globals k' !! "trained_model" = Some (VDict (trained_model_dict lb' lh'))
       ∧ heap k' !! lb' = Some (HBooster b'))
  ∧ ∀ X Y r,
      globals k !! "X_test" = Some (VDaskFrame X) →
      globals k !! "Y_test" = Some (VDaskFrame Y) →
      method1 b X Y = Ok r →
      (run cell_method1 k').1 = Ok ()
      ∧ stdout (run cell_method1 k').2 = stdout k' ++ [[VStr "rmse value:"; VFloat r]].
Proof.
  intros Hc Hd Hb Hlb.
  assert (run cell_train k
          = match xgb_train c params_dict m (VInt 100) with
            | Ok (b', h') =>
                let lb' := fresh (dom (heap k)) in
                let lh' := fresh (dom (<[lb' := HBooster b']> (heap k))) in
                (Ok (),
                 Kernel (environ k)
                   (<["trained_model" := VDict (trained_model_dict lb' lh')]>
                      (<["params" := VDict params_dict]> (globals k)))
                   (<[lh' := HHistory h']> (<[lb' := HBooster b']> (heap k)))
                   (calls k ++ [Entry (call_train params_dict (VInt 100))
                                  (environ k) None])
                   (stdout k))
            | Raise e =>
                (Raise e,
                 Kernel (environ k)
                   (<["params" := VDict params_dict]> (globals k)) (heap k)
                   (calls k ++ [Entry (call_train params_dict (VInt 100))
                                  (environ k) (Some e)])
                   (stdout k))
            end) as Hrun.
  { unfold cell_train. cbn [run]. run_stmt.
    rewrite !lookup_insert_ne, Hc by done. simpl.
    rewrite lookup_insert_eq. simpl.
    rewrite !lookup_insert_ne, Hd by done. simpl.
    rewrite lookup_insert_eq. simpl.
    change (dict_getitem params_dict "num_rounds")
      with (Ok (VInt 100) : outcome pyobj).
    simpl. by destruct (xgb_train c params_dict m (VInt 100)) as [[b' h']|e]. }
  rewrite Hrun. clear Hrun.
  destruct (xgb_train c params_dict m (VInt 100)) as [[b' h']|e] eqn:Ht;
    [| done].
  cbv zeta. intros _.
  destruct (fresh_twice (heap k) (HBooster b')) as (Hne & Hfresh & Hfresh').
  set (lb' := fresh (dom (heap k))) in *.
  set (lh' := fresh (dom (<[lb' := HBooster b']> (heap k)))) in *.
  assert (lb' ≠ lb) as Hlb' by (intros ->; congruence).
  assert (lh' ≠ lb) as Hlh' by (intros ->; congruence).
  cbn [fst snd globals heap stdout].
  assert (<[lh' := HHistory h']> (<[lb' := HBooster b']> (heap k)) !! lb
          = Some (HBooster b)) as Hold.
  { by rewrite !lookup_insert_ne. }
  split; [by rewrite !lookup_insert_ne |]. split; [exact Hold |].
  split.
  { exists lb', lh', b', h'. split; [done |]. split; [done |].
    split; [apply lookup_insert_eq |].
    by rewrite lookup_insert_ne, lookup_insert_eq. }
  intros X Y r HX HY Hr.
  match goal with
  | |- (run cell_method1 ?K).1 = _ ∧ _ =>
      apply (run_cell_method1 K c lb b X Y r)
  end; cbn [globals heap]; try done.
  all: by rewrite !lookup_insert_ne.
Qed.

End Model.

(** *** What the metric tells *)

Lemma sum_R_zero (l : list R) :
  Forall (λ v, 0 <= v)%R l → sum_R l = 0%R → Forall (λ v, v = 0%R) l.
Proof.
  induction 1 as [|x l Hx Hl IH]; [constructor |].
  unfold sum_R in *. simpl. intros Hsum.
  pose proof (sum_R_nonneg l Hl) as Hpos. unfold sum_R in Hpos.
  constructor; [lra |]. apply IH. lra.
Qed.

Lemma squared_differences_zero (p t : list R) :
  length p = length t →
  Forall (λ v, v = 0%R) (squared_differences p t) ↔ p = t.
Proof.
  unfold squared_differences. revert t.
  induction p as [|x p IH]; intros [|y t] Hlen; simplify_eq/=.
  - split; [done | constructor].
  - rewrite Forall_cons, (IH t Hlen). split.
    + intros [Hxy ->]. f_equal.
      assert ((x - y) * (x - y) = 0)%R as Hsq by lra.
      apply Rmult_integral in Hsq. lra.
    + intros [= -> ->]. split; [lra | done].
Qed.

Lemma length_squared_differences (p t : list R) :
  length p = length t → length (squared_differences p t) = length p.
Proof.
  intros Hlen. unfold squared_differences. rewrite length_zip_with. lia.
Qed.

(** The reference metric of predictions against as many labels: not a
    number when there is none, and otherwise a number that is not below
    zero and that is zero exactly when every prediction is its label. *)
Lemma rmse_reference_zero (p t : list R) :
  length p = length t →
  (rmse_reference p t = None ↔ p = [])
  ∧ ∀ r, rmse_reference p t = Some r → (0 <= r)%R ∧ (r = 0%R ↔ p = t).
Proof.
  intros Hlen. unfold rmse_reference. rewrite arithmetic_mean_divide.
  pose proof (length_squared_differences p t Hlen) as Hl.
  pose proof (squared_differences_nonneg p t) as Hpos.
  pose proof (squared_differences_zero p t Hlen) as Hzero.
  revert Hl Hpos Hzero. generalize (squared_differences p t). intros l Hl Hpos Hzero.
  unfold divide. case_decide as Hempty; simpl.
  { split; [| done]. split; [| done]. intros _.
    destruct p; [done |]. simpl in Hl. lia. }
  split.
  { split; [done |]. intros ->. simpl in Hl. lia. }
  intros r [= <-].
  assert (0 < INR (length l))%R as Hn by (apply lt_0_INR; lia).
  assert (0 <= sum_R l / INR (length l))%R as Hmean.
  { unfold Rdiv. apply Rle_mult_inv_pos; [by apply sum_R_nonneg | done]. }
  split; [apply sqrt_pos |].
  rewrite <- Hzero. split.
  - intros Hroot. apply sqrt_eq_0 in Hroot; [| done].
    apply sum_R_zero; [done |].
    unfold Rdiv in Hroot. apply Rmult_integral in Hroot as [?|Hinv]; [done |].
    exfalso. revert Hinv. apply Rinv_neq_0_compat. lra.
  - intros Hall.
    assert (sum_R l = 0%R) as ->.
    { clear -Hall. induction Hall as [|x l -> _ IH]; [done |].
      unfold sum_R in *. simpl. rewrite IH. lra. }
    unfold Rdiv. rewrite Rmult_0_l. apply sqrt_0.
Qed.



(** *** The two metric cells, run in any order and any number of times *)

Section Cells.
Context `{External}.

(** A metric cell reads [client], [booster], [X_test] and [Y_test] and
    binds [pred], [true], [squared_error] and [rmse] only; it leaves the
    heap as it is. *)
Lemma metric_cell_frame (first : bool) k v :
  v ∈ ["client"; "booster"; "X_test"; "Y_test"] →
  let cell := if first then cell_method1 else cell_method2 in
  globals (run cell k).2 !! v = globals k !! v ∧ heap (run cell k).2 = heap k.
Proof.
  intros Hv cell. split.
  - apply run_globals. subst cell.
    repeat (apply elem_of_cons in Hv as [->|Hv]);
      [| | | | by apply elem_of_nil in Hv];
      destruct first; by apply (bool_decide_unpack _).
  - apply run_heap; subst cell; destruct first; by apply (bool_decide_unpack _).
Qed.

Ltac read_names :=
  repeat first
    [ rewrite lookup_insert_eq
    | rewrite lookup_insert_ne by done
    | match goal with Hn : globals _ !! _ = Some _ |- _ => rewrite Hn end
    | match goal with Hn : heap _ !! _ = Some _ |- _ => rewrite Hn end
    | progress simpl ].

(** A metric cell ends with the exception of its method, when there is
    one. *)
Lemma run_cell_method1_raise k c lb b X Y e :
  globals k !! "client" = Some (VClient c) →
  globals k !! "booster" = Some (VRef lb) →
  heap k !! lb = Some (HBooster b) →
  globals k !! "X_test" = Some (VDaskFrame X) →
  globals k !! "Y_test" = Some (VDaskFrame Y) →
  method1 b X Y = Raise e →
  (run cell_method1 k).1 = Raise e.
Proof.
  intros Hc Hb Hlb HX HY. unfold method1, cell_method1. cbn [run]. run_stmt.
  read_names.
  destruct (traverse _ (partitions X)) as [parts|e1]; simpl; [| by intros [= ->]].
  read_names.
  destruct (dask_column_series "x" Y) as [t|e2]; simpl; [| by intros [= ->]].
  read_names. unfold rmse_method1, dask_sub.
  destruct (dask_binop _ _ _) as [d|e3]; simpl; [done | by intros [= ->]].
Qed.

Lemma run_cell_method2_raise k lb b X Y e :
  globals k !! "booster" = Some (VRef lb) →
  heap k !! lb = Some (HBooster b) →
  globals k !! "X_test" = Some (VDaskFrame X) →
  globals k !! "Y_test" = Some (VDaskFrame Y) →
  method2 b X Y = Raise e →
  (run cell_method2 k).1 = Raise e.
Proof.
  intros Hb Hlb HX HY. unfold method2, cell_method2. cbn [run]. run_stmt.
  read_names.
  destruct (inplace_predict _ _) as [pred|e1]; simpl; [| by intros [= ->]].
  read_names.
  destruct (dask_column_series "x" Y) as [t|e2]; simpl; [| by intros [= ->]].
  read_names. unfold rmse_method2.
  destruct (array_sub_series _ _) as [d|e3]; simpl; [done | by intros [= ->]].
Qed.

(** Why a metric cell fails, when it does: the prediction call has
    raised, or the predictions and the labels differ in number. *)
Lemma run_cell_method1_cause k c lb b X Y t e :
  globals k !! "client" = Some (VClient c) →
  globals k !! "booster" = Some (VRef lb) →
  heap k !! lb = Some (HBooster b) →
  globals k !! "X_test" = Some (VDaskFrame X) →
  globals k !! "Y_test" = Some (VDaskFrame Y) →
  dask_column_series "x" Y = Ok t →
  (run cell_method1 k).1 = Raise e →
  (∃ pre c' env, calls (run cell_method1 k).2 = pre ++ [Entry c' env (Some e)])
  ∨ e = ValueError.
Proof.
  intros Hc Hb Hlb HX HY Ht. unfold cell_method1. cbn [run]. run_stmt.
  read_names.
  destruct (traverse _ (partitions X)) as [parts|e1]; simpl.
  2:{ intros [= ->]. left. by eexists _, _, _. }
  read_names. rewrite Ht. read_names. unfold dask_sub, dask_binop.
  case_decide; simpl; [| intros [= <-]; by right].
  read_names. done.
Qed.

Lemma run_cell_method2_cause k lb b X Y t e :
  globals k !! "booster" = Some (VRef lb) →
  heap k !! lb = Some (HBooster b) →
  globals k !! "X_test" = Some (VDaskFrame X) →
  globals k !! "Y_test" = Some (VDaskFrame Y) →
  dask_column_series "x" Y = Ok t →
  (run cell_method2 k).1 = Raise e →
  (∃ pre c' env, calls (run cell_method2 k).2 = pre ++ [Entry c' env (Some e)])
  ∨ e = ValueError.
Proof.
  intros Hb Hlb HX HY Ht. unfold cell_method2. cbn [run]. run_stmt.
  read_names.
  destruct (inplace_predict _ _) as [pred|e1]; simpl.
  2:{ intros [= ->]. left. by eexists _, _, _. }
  read_names. rewrite Ht. read_names. unfold array_sub_series.
  case_decide; simpl; [| intros [= <-]; by right].
  read_names. done.
Qed.


End Cells.

(** *** The notebook and its dataflow *)

Section Notebook_dataflow.
Context `{External}.

#[local] Arguments run : simpl never.

Lemma run_cons s rest k :
  run (s :: rest) k
  = match exec s k with
    | (Ok _, k') => run rest k'
    | (Raise e, k') => (Raise e, k')
    end.
Proof. reflexivity. Qed.

(** Symbolic execution of one statement.  The names bound so far are kept
    as facts about an opaque map, so that a lookup costs one rewrite. *)
Ltac read_globals :=
  repeat first
    [ match goal with
      | Hn : ?g !! ?n = Some _ |- context [?g !! ?n] => rewrite Hn
      end
    | progress simpl ].

Ltac freeze_globals :=
  repeat match goal with
  | |- context [<[?v := ?x]> ?g] =>
      is_var g;
      let g' := fresh "g" in
      let Hg := fresh "Hg" in
      remember (<[v := x]> g) as g' eqn:Hg in |- *;
      assert (g' !! v = Some x) by (rewrite Hg; apply lookup_insert_eq);
      repeat match goal with
        | Hn : g !! ?n = Some ?val |- _ =>
            try (assert (g' !! n = Some val)
                   by (rewrite Hg, lookup_insert_ne by done; exact Hn));
            clear Hn
        end;
      clear Hg; try clear g
  end.

Ltac freeze_calls :=
  try match goal with
  | |- context [?c ++ [Entry ?cl ?en None]] =>
      generalize (c ++ [Entry cl en None]); intros ?
  end.

Ltac settle := simpl; read_globals; freeze_globals; freeze_calls.
Ltac step := rewrite run_cons; run_stmt; simpl; read_globals; freeze_globals.

Lemma first_token_raises text e : first_token text = Raise e → e = IndexError.
Proof.
  unfold first_token, list_getitem. simpl.
  case_decide; [| by intros [= <-]].
  destruct (str_split text) as [|tok toks]; simpl; [by intros [= <-] | done].
Qed.

Lemma cudf_DataFrame_raises c1 c2 e :
  cudf_DataFrame c1 c2 = Raise e → e = ValueError.
Proof. unfold cudf_DataFrame. case_decide; [done | by intros [= <-]]. Qed.

(** A failure before the metric cells: the last call of the log raised,
    or the output of [hostname] held no token, or the two generated
    columns differ in length. *)
Ltac library_raised := left; eexists _, _, _; simpl; reflexivity.
Ltac never :=
  exfalso;
  match goal with
  | Hq : from_cudf ?cdf npartitions = Raise _ |- _ =>
      destruct (from_cudf_total cdf) as [? Hok]; rewrite Hok in Hq; discriminate Hq
  | Hcdf : cudf_DataFrame _ _ = Ok ?cdf,
    Hddf : from_cudf ?cdf npartitions = Ok ?ddf,
    Hq : dask_query (the_query ?op) ?ddf = Raise _ |- _ =>
      destruct (split_rows _ _ _ _ op Hcdf Hddf) as (? & Hok & _);
      rewrite Hok in Hq; discriminate Hq
  | Hcdf : cudf_DataFrame _ _ = Ok ?cdf,
    Hddf : from_cudf ?cdf npartitions = Ok ?ddf,
    Hsub : dask_query (the_query ?op) ?ddf = Ok ?sub,
    Hq : target ?sub = Raise _ |- _ =>
      rewrite (target_xy sub (subset_xy_table _ _ _ _ _ _ Hcdf Hddf Hsub)) in Hq;
      discriminate Hq
  | Hcdf : cudf_DataFrame _ _ = Ok ?cdf,
    Hddf : from_cudf ?cdf npartitions = Ok ?ddf,
    Hsub : dask_query (the_query ?op) ?ddf = Ok ?sub,
    Hq : features ?sub = Raise _ |- _ =>
      rewrite (features_xy sub (subset_xy_table _ _ _ _ _ _ Hcdf Hddf Hsub)) in Hq;
      discriminate Hq
  end.
Ltac raised cause := simpl; intros Hraise _; apply Hraise; [done | cause].

Lemma getitem_num_rounds : dict_getitem params_dict "num_rounds" = Ok (VInt 100).
Proof. reflexivity. Qed.

Lemma getitem_booster lb lh :
  dict_getitem (trained_model_dict lb lh) "booster" = Ok (VRef lb).
Proof. unfold dict_getitem, trained_model_dict. by rewrite lookup_insert_eq. Qed.

Lemma getitem_history lb lh :
  dict_getitem (trained_model_dict lb lh) "history" = Ok (VRef lh).
Proof.
  unfold dict_getitem, trained_model_dict.
  by rewrite lookup_insert_ne, lookup_insert_eq.
Qed.

Opaque str_split first_token cudf_DataFrame from_cudf dask_query target
  features params_dict trained_model_dict dict_getitem.

(** The cells before the metric cells, run from any kernel [k0]: what
    holds of every failure with its cause and of every kernel in which the
    cells have run to their end, holds of the run.  The run is followed
    statement by statement, with one case for every answer of a
    library. *)
Lemma run_prepare k0 (Q : outcome () * kernel → Prop) :
  (∀ e k,
     prepare (environ k0) = Raise e →
     (∃ pre c env, calls k = pre ++ [Entry c env (Some e)])
     ∨ e = IndexError ∨ e = ValueError →
     Q (Raise e, k)) →
  (∀ c b t X Y lb k,
     prepare (environ k0) = Ok (c, b, X, Y) →
     xy_table t → features t = Ok X → target t = Ok Y →
     globals k !! "client" = Some (VClient c) →
     globals k !! "booster" = Some (VRef lb) →
     heap k !! lb = Some (HBooster b) →
     globals k !! "X_test" = Some (VDaskFrame X) →
     globals k !! "Y_test" = Some (VDaskFrame Y) →
     stdout k = stdout k0 →
     environ k = <["NCCL_P2P_DISABLE" := "1"]> (environ k0) →
     Q (Ok (), k)) →
  Q (run cells_before_metric k0).
Proof.
  unfold prepare, cells_before_metric, cell_env, cell_cluster, cell_dataset,
    cell_version, cell_dmatrix, cell_train, cell_model.
  cbn [app].
  step. remember (globals k0) as g0 eqn:Hg0. clear Hg0.
  step. destruct import_modules as [[]|e]; [settle | raised library_raised].
  step.
  step. destruct (subprocess_Popen _) as [process|e];
    [settle | raised library_raised].
  step. destruct (communicate _) as [output|e]; [settle | raised library_raised].
  step. destruct (bytes_decode _) as [text|e]; [settle | raised library_raised].
  destruct (first_token _) as [ip|e] eqn:Hip;
    [settle | raised ltac:(right; left; by eapply first_token_raises)].
  step. destruct (LocalCUDACluster _ _) as [cluster|e];
    [settle | raised library_raised].
  step. destruct (Client_connect _ _) as [client|e];
    [settle | raised library_raised].
  step. step. step.
  step. destruct (cupy_random_randint _ _ _) as [xs|e];
    [settle | raised library_raised].
  destruct (cupy_random_normal _) as [ys|e]; [settle | raised library_raised].
  destruct (cudf_DataFrame _ _) as [cdf|e] eqn:Hcdf;
    [settle | raised ltac:(right; right; by eapply cudf_DataFrame_raises)].
  step. destruct (from_cudf _ _) as [ddf|e] eqn:Hddf; [settle | raised never].
  step. destruct (dask_query (the_query OpLt) ddf) as [train|e] eqn:Htrain;
    [settle | raised never].
  step. destruct (target train) as [Y_train|e] eqn:HYtrain; [settle | raised never].
  step. destruct (features train) as [X_train|e] eqn:HXtrain; [settle | raised never].
  step. destruct (dask_query (the_query OpGt) ddf) as [test|e] eqn:Htest;
    [settle | raised never].
  step. destruct (target test) as [Y_test|e] eqn:HYtest; [settle | raised never].
  step. destruct (features test) as [X_test|e] eqn:HXtest; [settle | raised never].
  step.
  step. destruct (wait _) as [[]|e]; [settle | raised library_raised].
  step. destruct (DaskDMatrix _ _ _) as [dtrain|e];
    [settle | raised library_raised].
  step.
  step. rewrite getitem_num_rounds. simpl; read_globals.
  destruct (xgb_train _ _ _ _) as [[b0 h]|e]; [| raised library_raised].
  destruct (fresh_twice (heap k0) (HBooster b0)) as (Hne & Hlb & Hlh).
  simpl.
  set (lb := fresh (dom (heap k0))) in *.
  set (lh := fresh (dom (<[lb := HBooster b0]> (heap k0)))) in *.
  settle.
  step. rewrite getitem_booster. settle.
  step. rewrite getitem_history. settle.
  step. rewrite (lookup_insert_ne _ lh lb), lookup_insert_eq by done.
  simpl; read_globals.
  destruct (Booster_set_param _ _) as [b|e]; [settle | raised library_raised].
  intros _ Hok.
  eapply (Hok _ _ test _ _ lb); simpl; try done.
  - by eapply subset_xy_table.
  - apply lookup_insert_eq.
Qed.

(** What the libraries have answered when the cells before the metric
    cells have run to their end. *)
Lemma prepare_inv env c b X_test Y_test :
  prepare env = Ok (c, b, X_test, Y_test) →
  let env := <["NCCL_P2P_DISABLE" := "1"]> env in
  ∃ process output text IPADDR cluster xs ys cdf ddf train test
    X_train Y_train dtrain b0 history,
    subprocess_Popen (str_split "hostname --all-ip-addresses") = Ok process
    ∧ communicate process = Ok output
    ∧ bytes_decode output = Ok text
    ∧ first_token text = Ok IPADDR
    ∧ LocalCUDACluster env IPADDR = Ok cluster
    ∧ Client_connect env cluster = Ok c
    ∧ cupy_random_randint 0 npartitions size = Ok xs
    ∧ cupy_random_normal size = Ok ys
    ∧ cudf_DataFrame ("x", IntColumn xs) ("y", FloatColumn ys) = Ok cdf
    ∧ from_cudf cdf npartitions = Ok ddf
    ∧ dask_query (the_query OpLt) ddf = Ok train
    ∧ target train = Ok Y_train
    ∧ features train = Ok X_train
    ∧ dask_query (the_query OpGt) ddf = Ok test
    ∧ target test = Ok Y_test
    ∧ features test = Ok X_test
    ∧ wait [X_train; Y_train] = Ok ()
    ∧ DaskDMatrix c X_train Y_train = Ok dtrain
    ∧ xgb_train c params_dict dtrain (VInt 100) = Ok (b0, history)
    ∧ Booster_set_param b0 [("predictor", "gpu_predictor")] = Ok b.
Proof.
  unfold prepare. intros Hp.
  repeat match type of Hp with
    | context [mbind _ ?o] =>
        destruct o as [?|?] eqn:?; simpl in Hp; [| discriminate Hp]
    end.
  injection Hp as <- <- <- <-.
  repeat match goal with u : () |- _ => destruct u end.
  match goal with Ht : xgb_train _ _ _ _ = Ok ?p |- _ => destruct p end.
  simpl in *. eexists _, _, _, _, _, _, _, _, _, _, _, _, _, _, _, _.
  repeat (split; [first [eassumption | reflexivity] |]).
  first [eassumption | reflexivity].
Qed.

Transparent str_split first_token cudf_DataFrame from_cudf dask_query target
  features params_dict trained_model_dict dict_getitem.

(** The two metric cells, one after the other. *)
Lemma run_metric_cells k c lb b X Y :
  globals k !! "client" = Some (VClient c) →
  globals k !! "booster" = Some (VRef lb) →
  heap k !! lb = Some (HBooster b) →
  globals k !! "X_test" = Some (VDaskFrame X) →
  globals k !! "Y_test" = Some (VDaskFrame Y) →
  (run (cell_method1 ++ cell_method2) k).1
  = (method1 b X Y ≫= λ _, method2 b X Y ≫= λ _, Ok ())
  ∧ ∀ r1 r2,
      method1 b X Y = Ok r1 → method2 b X Y = Ok r2 →
      stdout (run (cell_method1 ++ cell_method2) k).2
      = stdout k ++ [[VStr "rmse value:"; VFloat r1];
                     [VStr "rmse value:"; VFloat r2]].
Proof.
  intros Hc Hb Hlb HX HY.
  destruct (method1 b X Y) as [r1|e] eqn:H1.
  2:{ pose proof (run_cell_method1_raise k c lb b X Y e Hc Hb Hlb HX HY H1) as Hr.
      rewrite run_app.
      destruct (run cell_method1 k) as [[[]|e'] k1]; simpl in *; [done |].
      by split. }
  destruct (run_cell_method1 k c lb b X Y r1 Hc Hb Hlb HX HY H1) as [Hok1 Hout1].
  rewrite (run_app_ok _ _ _ Hok1).
  set (k1 := (run cell_method1 k).2) in *.
  assert (globals k1 !! "booster" = Some (VRef lb)) as Hb1.
  { rewrite <- Hb. apply (metric_cell_frame true).
    apply list_elem_of_further, list_elem_of_here. }
  assert (globals k1 !! "X_test" = Some (VDaskFrame X)) as HX1.
  { rewrite <- HX. apply (metric_cell_frame true).
    do 2 apply list_elem_of_further. apply list_elem_of_here. }
  assert (globals k1 !! "Y_test" = Some (VDaskFrame Y)) as HY1.
  { rewrite <- HY. apply (metric_cell_frame true).
    do 3 apply list_elem_of_further. apply list_elem_of_here. }
  assert (heap k1 !! lb = Some (HBooster b)) as Hlb1.
  { rewrite <- Hlb. f_equal.
    by apply (metric_cell_frame true k "client"), list_elem_of_here. }
  destruct (method2 b X Y) as [r2|e] eqn:H2.
  2:{ pose proof (run_cell_method2_raise k1 lb b X Y e Hb1 Hlb1 HX1 HY1 H2) as Hr.
      by split. }
  destruct (run_cell_method2 k1 lb b X Y r2 Hb1 Hlb1 HX1 HY1 H2) as [Hok2 Hout2].
  split; [done |]. intros ? ? [= <-] [= <-].
  by rewrite Hout2, Hout1, <- app_assoc.
Qed.

Lemma run_metric_cells_cause k c lb b X Y t e :
  globals k !! "client" = Some (VClient c) →
  globals k !! "booster" = Some (VRef lb) →
  heap k !! lb = Some (HBooster b) →
  globals k !! "X_test" = Some (VDaskFrame X) →
  globals k !! "Y_test" = Some (VDaskFrame Y) →
  dask_column_series "x" Y = Ok t →
  (run (cell_method1 ++ cell_method2) k).1 = Raise e →
  (∃ pre c' env,
     calls (run (cell_method1 ++ cell_method2) k).2
     = pre ++ [Entry c' env (Some e)])
  ∨ e = ValueError.
Proof.
  intros Hc Hb Hlb HX HY Ht. rewrite run_app.
  pose proof (run_cell_method1_cause k c lb b X Y t) as Hfirst.
  pose proof (λ v Hv, proj1 (metric_cell_frame true k v Hv)) as Hframe.
  pose proof (proj2 (metric_cell_frame true k "client"
                       ltac:(apply list_elem_of_here))) as Hheap.
  cbv zeta in Hframe, Hheap.
  destruct (run cell_method1 k) as [[[]|e1] k1]; simpl in *.
  - apply (run_cell_method2_cause k1 lb b X Y t e); [| | | | done].
    + rewrite Hframe; [done |]. apply list_elem_of_further, list_elem_of_here.
    + by rewrite Hheap.
    + rewrite Hframe; [done |]. do 2 apply list_elem_of_further.
      apply list_elem_of_here.
    + rewrite Hframe; [done |]. do 3 apply list_elem_of_further.
      apply list_elem_of_here.
  - intros [= ->]. by apply Hfirst.
Qed.




End Notebook_dataflow.

(** *** The tokens of [str.split()] *)

Lemma solid_snoc (tok : string) (c : ascii) :
  solid tok = true → isspace c = false → solid (tok +:+ String c "") = true.
Proof.
  intros Ht Hc. induction tok as [|x tok IH].
  - rewrite append_empty_l. simpl. by rewrite Hc.
  - simpl in Ht. apply andb_prop in Ht as [Hx Ht].
    rewrite append_cons. simpl. by rewrite Hx, IH.
Qed.

Lemma split_whitespace_tokens (tok s : string) :
  solid tok = true →
  Forall (λ t, t ≠ "" ∧ solid t = true) (split_whitespace tok s).
Proof.
  revert tok. induction s as [|c s IH]; intros tok Ht; simpl.
  - case_decide; by repeat constructor.
  - destruct (isspace c) eqn:Hc.
    + case_decide; [by apply IH |]. constructor; [done | by apply IH].
    + apply IH. by apply solid_snoc.
Qed.

Lemma str_split_join (toks : list string) :
  Forall (λ t, t ≠ "" ∧ solid t = true) toks →
  str_split (String.concat " " toks) = toks.
Proof.
  unfold str_split. induction 1 as [|t toks [Hne Ht] Htoks IH]; [done |].
  destruct toks as [|t' toks].
  - simpl. rewrite <- (append_empty_r t) at 1.
    rewrite split_whitespace_solid by done. simpl.
    by rewrite decide_False.
  - change (String.concat " " (t :: t' :: toks))
      with (t +:+ String " " (String.concat " " (t' :: toks))).
    set (rest := String.concat " " (t' :: toks)) in *.
    rewrite split_whitespace_solid by done. rewrite append_empty_l.
    change (split_whitespace t (String " " rest))
      with (if decide (t = "") then split_whitespace "" rest
            else t :: split_whitespace "" rest).
    rewrite decide_False by done. by rewrite IH.
Qed.

(** X16: [s.split()] as the notebook uses it for the command line and for the
    output of [hostname]: every token is non-empty and holds no
    whitespace; there is no token exactly when the text is blank; and
    tokens joined by single blanks are split into the same tokens
    again. *)
Theorem str_split_tokens :
  (∀ s, Forall (λ t, t ≠ "" ∧ solid t = true) (str_split s))
  ∧ (∀ s, str_split s = [] ↔ blank s = true)
  ∧ (∀ toks, Forall (λ t, t ≠ "" ∧ solid t = true) toks →
             str_split (String.concat " " toks) = toks).
Proof.
  split; [intros s; by apply split_whitespace_tokens |].
  split; [| exact str_split_join].
  intros s. split.
  - intros Hs. destruct (blank s) eqn:Hb; [done |]. exfalso.
    destruct (not_blank_token s Hb) as (ws & tok & rest & -> & ? & ? & ? & ?).
    pose proof (first_token_of ws tok rest) as Hfirst.
    unfold first_token in Hfirst. rewrite Hs in Hfirst.
    by specialize (Hfirst ltac:(done) ltac:(done) ltac:(done) ltac:(done)).
  - intros Hb. unfold str_split. by rewrite split_whitespace_blank.
Qed.

Lemma str_split_tokens_witness :
  str_split (String.concat " " ["hostname"; "--all-ip-addresses"])
  = ["hostname"; "--all-ip-addresses"]
  ∧ str_split "  " = [].
Proof.
  destruct str_split_tokens as (_ & Hblank & Hjoin).
  split.
  - apply Hjoin. by repeat constructor.
  - by apply Hblank.
Defined.

(** *** The notebook on the small library *)

Section Toy.
#[local] Existing Instance toy_handles.


Example run_on_toy :
  (@run _ toy notebook (boot ∅)).1 = Ok ()
  ∧ callee <$> calls (@run _ toy notebook (boot ∅)).2
    = [call_import; call_Popen ["hostname"; "--all-ip-addresses"];
       call_communicate; call_decode; call_LocalCUDACluster "10.33.227.157";
       call_Client; call_randint 0 8 1000000; call_normal 1000000;
       call_wait; call_DaskDMatrix; call_train params_dict (VInt 100);
       call_set_param [("predictor", "gpu_predictor")];
       call_predict; call_inplace_predict]
  ∧ length (stdout (@run _ toy notebook (boot ∅)).2) = 2%nat.
Proof. repeat split; vm_compute; reflexivity. Qed.

Lemma p2p_disabled_before_runtime_witness :
  let k := (@run _ toy (take 8 notebook) (boot ∅)).2 in
  let en := Entry call_Client {["NCCL_P2P_DISABLE" := "1"]} None in
  en ∈ calls k
  ∧ env_at en !! "NCCL_P2P_DISABLE" = Some "1"
  ∧ environ k !! "NCCL_P2P_DISABLE" = Some "1"
  ∧ calls (@run _ toy (take 1 notebook) (boot ∅)).2 = [].
Proof.
  intros k en.
  assert (en ∈ calls k) as Hen.
  { apply list_elem_of_lookup. exists 5%nat. vm_compute. reflexivity. }
  destruct (@p2p_disabled_before_runtime _ toy ∅ 8) as (H1 & H2 & _).
  destruct (@p2p_disabled_before_runtime _ toy ∅ 1) as (_ & _ & H3).
  split; [exact Hen |]. split; [by apply H1 |].
  split; [apply H2; lia | apply H3; lia].
Defined.

Lemma training_call_witness :
  let k := (@run _ toy (take 24 notebook) (boot ∅)).2 in
  let en := Entry (call_train params_dict (VInt 100))
              {["NCCL_P2P_DISABLE" := "1"]} None in
  en ∈ calls k
  ∧ params_dict !! "num_rounds" = Some (VInt 100)
  ∧ globals k !! "trained_model" = Some (VDict (trained_model_dict 1 2))
  ∧ ∃ lb lh b h,
      VDict (trained_model_dict 1 2) = VDict (trained_model_dict lb lh)
      ∧ trained_model_dict lb lh !! "booster" = Some (VRef lb)
      ∧ trained_model_dict lb lh !! "history" = Some (VRef lh)
      ∧ heap k !! lb = Some (HBooster b)
      ∧ heap k !! lh = Some (HHistory h).
Proof.
  intros k en.
  assert (en ∈ calls k) as Hen.
  { apply list_elem_of_lookup. exists 10%nat. vm_compute. reflexivity. }
  assert (globals k !! "trained_model" = Some (VDict (trained_model_dict 1 2)))
    as Htm by (vm_compute; reflexivity).
  destruct (@training_call _ toy ∅ 24) as (H1 & _ & _ & H3 & _).
  split; [exact Hen |].
  split; [exact (proj2 (proj2 (H1 en _ _ Hen eq_refl))) |].
  split; [exact Htm |]. exact (H3 _ Htm).
Defined.



End Toy.

(** *** More of the notebook on the small library *)

Section Toy_more.
#[local] Existing Instance toy_handles.


Lemma calls_in_source_order_witness :
  (@run _ toy notebook (boot ∅)).1 = Ok ()
  ∧ ∃ new, calls (@run _ toy notebook (boot ∅)).2 = [] ++ new
           ∧ call_names new = external_calls.
Proof.
  assert ((@run _ toy notebook (boot ∅)).1 = Ok ()) as Hok
    by (vm_compute; reflexivity).
  split; [exact Hok |].
  destruct (@calls_in_source_order _ toy (boot ∅) 41) as (_ & _ & Hall).
  exact (Hall Hok).
Defined.


Lemma retraining_leaves_booster_witness :
  let k := Kernel ∅
             (<["client" := VClient "c"]>
                (<["dtrain" := VDMatrix ()]> (<["booster" := VRef 1]> ∅)))
             (<[1%positive := HBooster []]> ∅) [] [] in
  let k' := (@run _ toy cell_train k).2 in
  globals k' !! "booster" = Some (VRef 1)
  ∧ heap k' !! 1%positive = Some (HBooster [])
  ∧ ∃ lb' lh',
      lb' ≠ 1%positive
      ∧ globals k' !! "trained_model" = Some (VDict (trained_model_dict lb' lh'))
      ∧ heap k' !! lb' = Some (HBooster [("tree_method", "gpu_hist")]).
Proof.
  intros k k'.
  destruct (@retraining_leaves_booster _ toy k "c" () 1%positive [])
    as (Hb & Hold & (lb' & lh' & b' & h' & Hne & Ht & Htm & Hnew) & _);
    [reflexivity | reflexivity | reflexivity | reflexivity
    | vm_compute; reflexivity |].
  split; [exact Hb |]. split; [exact Hold |].
  exists lb', lh'. split; [exact Hne |]. split; [exact Htm |].
  injection Ht as <- <-. exact Hnew.
Defined.

Lemma set_param_reaches_trained_model_witness :
  let k := (@run _ toy (take 24 notebook) (boot ∅)).2 in
  let k' := (@run _ toy cell_model k).2 in
  globals k' !! "booster" = Some (VRef 1)
  ∧ trained_model_dict 1 2 !! "booster" = Some (VRef 1)
  ∧ heap k' !! 1%positive
    = Some (HBooster [("predictor", "gpu_predictor"); ("tree_method", "gpu_hist")]).
Proof.
  intros k k'.
  destruct (@set_param_reaches_trained_model _ toy k (trained_model_dict 1 2)
              1%positive (VRef 2) [("tree_method", "gpu_hist")])
    as (_ & Hb & _ & _ & _ & _ & Hheap);
    [vm_compute; reflexivity | reflexivity | reflexivity
    | vm_compute; reflexivity |].
  split; [exact Hb |]. split; [reflexivity | exact Hheap].
Defined.





End Toy_more.
